(** * A reminder list: entity, collection manager and versioned storage layer

    Shallow embedding of the JavaScript sources

    - [Reminder] and [ReminderManager] (the reminder application module), and
    - [StorageLayer] (src/js/reminderApp/storageLayer.js),

    followed by the properties of the specification that were checked
    against them.

    Conventions of the embedding.

    - JavaScript values that cross a dynamically typed boundary (arguments of
      [add], [update], [import], parsed JSON) are elements of [value].
    - A [Reminder] is a typed record.  Its [title] and [priority] are only
      ever assigned after the source's validation; the other fields are
      stored unchecked by the source, so when a run would store a value of
      another JavaScript type than the data model's, the embedding answers
      [Untyped]: it makes no statement about that run.  [Untyped] is never
      caught by a modelled [try]/[catch].
    - Exceptions are the [Throw] outcome; state ([localStorage], the
      manager's collection) is passed explicitly, and the state reached at
      the moment of a throw is returned next to the outcome.
    - The clock and the id generator are read through an explicit [Env].
    - The manager's collection holds its entities by value: every [add]
      brings an object of its own.
    - Strings are byte strings; [trim] and [toLowerCase] act on ASCII.
      Numbers are integers.  Real-valued durations are rationals ([Q]). *)

From Stdlib Require Import ZArith QArith Qround Qabs String Ascii List Sorted
  OrdersEx Lia.
From stdpp Require Import base option list gmap strings pretty.

Local Open Scope Z_scope.

(** ** The date-time library

    [Temporal.PlainDateTime] comes from the @js-temporal/polyfill package,
    not from this repository: the development is parametric in it.
    [PlainDateTime_from] is [Temporal.PlainDateTime.from] on a string
    ([None] when it raises [RangeError]); [PlainDateTime_since d now] is the
    signed length of [d.since(now)] in nanoseconds. *)

Class Temporal := {
  PlainDateTime : Type;
  PlainDateTime_eq_dec :: EqDecision PlainDateTime;
  PlainDateTime_from : string → option PlainDateTime;
  PlainDateTime_toString : PlainDateTime → string;
  PlainDateTime_compare : PlainDateTime → PlainDateTime → Z;
  PlainDateTime_since : PlainDateTime → PlainDateTime → Z
}.

(** A reference implementation of the library, to the second, on which
    the examples of this development are evaluated: ISO 8601 calendar
    date-times printed as [YYYY-MM-DDTHH:MM:SS]. *)
Module Iso.

Record DateTime := mkDateTime {
  year : Z; month : Z; day : Z; hour : Z; minute : Z; second : Z
}.

#[global] Instance DateTime_eq_dec : EqDecision DateTime.
Proof. solve_decision. Defined.

Definition digit (n : Z) : ascii := ascii_of_nat (48 + Z.to_nat (n mod 10)).

Definition pad2 (n : Z) : string :=
  String (digit (n / 10)) (String (digit n) EmptyString).

Definition pad4 (n : Z) : string :=
  String (digit (n / 1000)) (String (digit (n / 100)) (pad2 n)).

Definition toString (d : DateTime) : string :=
  pad4 (year d) +:+ "-" +:+ pad2 (month d) +:+ "-" +:+ pad2 (day d) +:+ "T"
  +:+ pad2 (hour d) +:+ ":" +:+ pad2 (minute d) +:+ ":" +:+ pad2 (second d).

Fixpoint number (s : string) (acc : Z) : option Z :=
  match s with
  | EmptyString => Some acc
  | String c s' =>
      let n := nat_of_ascii c in
      if Nat.leb 48 n && Nat.leb n 57
      then number s' (10 * acc + Z.of_nat (n - 48))
      else None
  end.

Definition field (s : string) (start len : nat) : option Z :=
  number (substring start len s) 0.

Definition is_leap (y : Z) : bool :=
  ((y mod 4 =? 0) && negb (y mod 100 =? 0)) || (y mod 400 =? 0).

Definition days_in_month (y m : Z) : Z :=
  if m =? 2 then (if is_leap y then 29 else 28)
  else if (m =? 4) || (m =? 6) || (m =? 9) || (m =? 11) then 30
  else 31.

Definition well_formed (d : DateTime) : bool :=
  (0 <=? year d) && (year d <=? 9999) &&
  (1 <=? month d) && (month d <=? 12) &&
  (1 <=? day d) && (day d <=? days_in_month (year d) (month d)) &&
  (0 <=? hour d) && (hour d <=? 23) &&
  (0 <=? minute d) && (minute d <=? 59) &&
  (0 <=? second d) && (second d <=? 59).

Definition separators (s : string) : bool :=
  bool_decide (substring 4 1 s = "-") && bool_decide (substring 7 1 s = "-")
  && bool_decide (substring 10 1 s = "T") && bool_decide (substring 13 1 s = ":").

(** Accepts [YYYY-MM-DDTHH:MM:SS] and [YYYY-MM-DDTHH:MM]. *)
Definition from (s : string) : option DateTime :=
  let n := String.length s in
  if negb (separators s) then None
  else if negb (Nat.eqb n 16 || (Nat.eqb n 19 && bool_decide (substring 16 1 s = ":")))
  then None
  else
    y ← field s 0 4; mo ← field s 5 2; d ← field s 8 2;
    h ← field s 11 2; mi ← field s 14 2;
    se ← (if Nat.eqb n 16 then Some 0 else field s 17 2);
    let r := mkDateTime y mo d h mi se in
    if well_formed r then Some r else None.

Definition days_from_civil (y m d : Z) : Z :=
  let y' := if m <=? 2 then y - 1 else y in
  let era := y' / 400 in
  let yoe := y' - era * 400 in
  let mp := (m + 9) mod 12 in
  let doy := (153 * mp + 2) / 5 + d - 1 in
  let doe := yoe * 365 + yoe / 4 - yoe / 100 + doy in
  era * 146097 + doe - 719468.

Definition seconds (d : DateTime) : Z :=
  ((days_from_civil (year d) (month d) (day d) * 24 + hour d) * 60
   + minute d) * 60 + second d.

Definition compare (a b : DateTime) : Z :=
  match seconds a ?= seconds b with
  | Lt => -1
  | Eq => 0
  | Gt => 1
  end.

Definition since (d now : DateTime) : Z :=
  (seconds d - seconds now) * 1000000000.

Definition temporal : Temporal := {|
  PlainDateTime := DateTime;
  PlainDateTime_from := from;
  PlainDateTime_toString := toString;
  PlainDateTime_compare := compare;
  PlainDateTime_since := since
|}.

End Iso.

(** ** Outcomes of a call *)

Inductive exn :=
| Error (message : string)
| TypeError
| RangeError
| SyntaxError
| ReferenceError
| QuotaExceededError.

Inductive outcome (A : Type) :=
| Ret (a : A)
| Throw (e : exn)
| Untyped.

Arguments Ret {A} a.
Arguments Throw {A} e.
Arguments Untyped {A}.

#[global] Instance outcome_ret : MRet outcome := @Ret.
#[global] Instance outcome_bind : MBind outcome := λ A B f m,
  match m with
  | Ret a => f a
  | Throw e => Throw e
  | Untyped => Untyped
  end.

(** [error.message]: the text given to [new Error(...)]; errors raised by
    the engine carry an engine-specific text, of which the model keeps the
    kind. *)
Definition exn_message (e : exn) : string :=
  match e with
  | Error m => m
  | TypeError => "TypeError"
  | RangeError => "RangeError"
  | SyntaxError => "SyntaxError"
  | ReferenceError => "ReferenceError"
  | QuotaExceededError => "QuotaExceededError"
  end.

Definition is_ret {A} (o : outcome A) : bool :=
  match o with Ret _ => true | _ => false end.

(** ** String primitives of the host language *)

Module Str.

Definition is_space (c : ascii) : bool :=
  let n := nat_of_ascii c in
  (Nat.leb 9 n && Nat.leb n 13) || Nat.eqb n 32.

Fixpoint trimStart (s : string) : string :=
  match s with
  | EmptyString => EmptyString
  | String c s' => if is_space c then trimStart s' else s
  end.

Fixpoint rev_append (s acc : string) : string :=
  match s with
  | EmptyString => acc
  | String c s' => rev_append s' (String c acc)
  end.

Definition rev (s : string) : string := rev_append s EmptyString.

(** [s.trim()] *)
Definition trim (s : string) : string :=
  rev (trimStart (rev (trimStart s))).

Definition lower_ascii (c : ascii) : ascii :=
  let n := nat_of_ascii c in
  if Nat.leb 65 n && Nat.leb n 90 then ascii_of_nat (n + 32) else c.

(** [s.toLowerCase()] *)
Fixpoint toLowerCase (s : string) : string :=
  match s with
  | EmptyString => EmptyString
  | String c s' => String (lower_ascii c) (toLowerCase s')
  end.

Fixpoint startsWith (s t : string) : bool :=
  match t, s with
  | EmptyString, _ => true
  | String _ _, EmptyString => false
  | String b t', String a s' => Ascii.eqb a b && startsWith s' t'
  end.

(** [s.includes(t)] *)
Fixpoint includes (s t : string) : bool :=
  startsWith s t ||
  match s with
  | EmptyString => false
  | String _ s' => includes s' t
  end.

(** [parts.join(sep)] *)
Fixpoint join (sep : string) (parts : list string) : string :=
  match parts with
  | [] => EmptyString
  | [p] => p
  | p :: ps => p +:+ sep +:+ join sep ps
  end.

End Str.

(** ** Data model *)

Inductive Priority := low | medium | high.

#[global] Instance Priority_eq_dec : EqDecision Priority.
Proof. solve_decision. Defined.

Set Warnings "-register-all".

Section Data.

Context `{Temporal}.

(** The entity.  [ident] is the source's [id] field. *)
Record Reminder := mkReminder {
  ident : string;
  title : string;
  description : string;
  dueDate : option PlainDateTime;
  priority : Priority;
  category : string;
  isCompleted : bool;
  createdAt : PlainDateTime;
  completedAt : option PlainDateTime
}.

#[global] Instance Reminder_eq_dec : EqDecision Reminder.
Proof. solve_decision. Defined.

(** JavaScript values: JSON data, [undefined], date-time objects and
    instances of the [Reminder] class. *)
Inductive value :=
| VUndefined
| VNull
| VBool (b : bool)
| VNum (n : Z)
| VStr (s : string)
| VDate (d : PlainDateTime)
| VInst (r : Reminder)
| VArr (elems : list value)
| VObj (fields : list (string * value)).

(** *** Dynamic tests and property access *)

(** JavaScript truthiness ([!v] is its negation). *)
Definition truthy (v : value) : bool :=
  match v with
  | VUndefined | VNull => false
  | VBool b => b
  | VNum n => negb (n =? 0)
  | VStr s => negb (String.eqb s "")
  | VDate _ | VInst _ | VArr _ | VObj _ => true
  end.

(** [typeof v === 'object'] (which holds of [null]). *)
Definition typeof_object (v : value) : bool :=
  match v with
  | VNull | VDate _ | VInst _ | VArr _ | VObj _ => true
  | _ => false
  end.

(** [Array.isArray(v)] *)
Definition isArray (v : value) : bool :=
  match v with VArr _ => true | _ => false end.

(** [v instanceof Reminder] *)
Definition instanceof_Reminder (v : value) : bool :=
  match v with VInst _ => true | _ => false end.

Fixpoint assoc (k : string) (fields : list (string * value)) : value :=
  match fields with
  | [] => VUndefined
  | (k', v) :: rest => if String.eqb k k' then v else assoc k rest
  end.

Definition opt_date (o : option PlainDateTime) : value :=
  match o with Some d => VDate d | None => VNull end.

Definition Priority_toString (p : Priority) : string :=
  match p with low => "low" | medium => "medium" | high => "high" end.

(** The own data properties of a [Reminder] instance. *)
Definition instance_fields (r : Reminder) : list (string * value) :=
  [ ("id", VStr (ident r));
    ("title", VStr (title r));
    ("description", VStr (description r));
    ("dueDate", opt_date (dueDate r));
    ("priority", VStr (Priority_toString (priority r)));
    ("category", VStr (category r));
    ("isCompleted", VBool (isCompleted r));
    ("createdAt", VDate (createdAt r));
    ("completedAt", opt_date (completedAt r)) ].

(** [v.k] for the data properties the sources read ([title], [data], ...):
    reading a property of [null] or [undefined] raises [TypeError]; a
    missing property reads as [undefined]. *)
Definition get (v : value) (k : string) : outcome value :=
  match v with
  | VUndefined | VNull => Throw TypeError
  | VObj fields => Ret (assoc k fields)
  | VInst r => Ret (assoc k (instance_fields r))
  | VBool _ | VNum _ | VStr _ | VDate _ | VArr _ => Ret VUndefined
  end.

(** [a || b] *)
Definition or_else (a b : value) : value := if truthy a then a else b.

(** A parameter default [p = d]: taken when the argument is [undefined]. *)
Definition default_param (a d : value) : value :=
  match a with VUndefined => d | _ => a end.

(** Coercions of an unchecked field into the typed record. *)
Definition as_string (v : value) : outcome string :=
  match v with VStr s => Ret s | _ => Untyped end.

Definition as_bool (v : value) : outcome bool :=
  match v with VBool b => Ret b | _ => Untyped end.

Definition as_date_or_null (v : value) : outcome (option PlainDateTime) :=
  match v with
  | VNull | VUndefined => Ret None
  | VDate d => Ret (Some d)
  | _ => Untyped
  end.

(** [Temporal.PlainDateTime.from(v)]: a string is parsed, a date-time
    object is copied; a property bag is outside the model. *)
Definition PlainDateTime_from_value (v : value) : outcome PlainDateTime :=
  match v with
  | VStr s =>
      match PlainDateTime_from s with
      | Some d => Ret d
      | None => Throw RangeError
      end
  | VDate d => Ret d
  | VUndefined | VNull | VBool _ | VNum _ => Throw TypeError
  | VInst _ | VArr _ | VObj _ => Untyped
  end.

(** [v ? Temporal.PlainDateTime.from(v) : null] *)
Definition from_or_null (v : value) : outcome (option PlainDateTime) :=
  if truthy v then d ← PlainDateTime_from_value v; Ret (Some d)
  else Ret None.

(** The characters of a string, as one-character strings. *)
Definition chars (s : string) : list value :=
  (λ c, VStr (String c EmptyString)) <$> list_ascii_of_string s.

(** The elements of an array with their indices as keys. *)
Definition indexed (l : list value) : list (string * value) :=
  imap (λ i v, (pretty i, v)) l.

(** [Object.entries(v)] *)
Definition entries (v : value) : outcome (list (string * value)) :=
  match v with
  | VUndefined | VNull => Throw TypeError
  | VObj fields => Ret fields
  | VInst r => Ret (instance_fields r)
  | VArr l => Ret (indexed l)
  | VStr s => Ret (indexed (chars s))
  | VBool _ | VNum _ | VDate _ => Ret []
  end.

End Data.

(** ** The [Reminder] class *)

Module Reminder.
Section Methods.

Context `{Temporal}.

(** [!title || title.trim() === ''] raises 'Title is required'; a truthy
    title that is no string has no [trim] method. *)
Definition check_title (v : value) : outcome string :=
  if negb (truthy v) then Throw (Error "Title is required")
  else match v with
       | VStr s =>
           if String.eqb (Str.trim s) "" then Throw (Error "Title is required")
           else Ret s
       | _ => Throw TypeError
       end.

(** [['low', 'medium', 'high'].includes(v)], with the level it names. *)
Definition parse_priority (v : value) : option Priority :=
  match v with
  | VStr s =>
      if String.eqb s "low" then Some low
      else if String.eqb s "medium" then Some medium
      else if String.eqb s "high" then Some high
      else None
  | _ => None
  end.

Definition check_priority (v : value) : outcome Priority :=
  match parse_priority v with
  | Some p => Ret p
  | None => Throw (Error "Invalid priority level")
  end.

(** [new Reminder(title, description, dueDate, priority, category)];
    [now] is the reading of [Temporal.Now.plainDateTimeISO()] and [newId]
    the result of [_generateId()]. *)
Definition new (title_ description_ dueDate_ priority_ category_ : value)
    (now : PlainDateTime) (newId : string) : outcome Reminder :=
  let description_ := default_param description_ (VStr "") in
  let dueDate_ := default_param dueDate_ VNull in
  let priority_ := default_param priority_ (VStr "medium") in
  let category_ := default_param category_ (VStr "general") in
  t ← check_title title_;
  p ← check_priority priority_;
  d ← as_string description_;
  due ← as_date_or_null dueDate_;
  c ← as_string category_;
  Ret {| ident := newId; title := t; description := d; dueDate := due;
         priority := p; category := c; isCompleted := false;
         createdAt := now; completedAt := None |}.

Definition isOverdue (this : Reminder) (now : PlainDateTime) : bool :=
  match dueDate this with
  | None => false
  | Some d =>
      if isCompleted this then false
      else PlainDateTime_compare d now <? 0
  end.







(** [markComplete(completed = null)]: [None] is the omitted (or [null])
    argument. *)
Definition markComplete (this : Reminder) (completed : option bool)
    (now : PlainDateTime) : Reminder :=
  let c := match completed with
           | None => negb (isCompleted this)
           | Some b => b
           end in
  {| ident := ident this; title := title this; description := description this;
     dueDate := dueDate this; priority := priority this;
     category := category this; isCompleted := c; createdAt := createdAt this;
     completedAt := if c then Some now else None |}.

Definition opt_date_string (o : option PlainDateTime) : value :=
  match o with Some d => VStr (PlainDateTime_toString d) | None => VNull end.

Definition toJSON_fields (this : Reminder) : list (string * value) :=
  [ ("id", VStr (ident this));
    ("title", VStr (title this));
    ("description", VStr (description this));
    ("dueDate", opt_date_string (dueDate this));
    ("priority", VStr (Priority_toString (priority this)));
    ("category", VStr (category this));
    ("isCompleted", VBool (isCompleted this));
    ("createdAt", VStr (PlainDateTime_toString (createdAt this)));
    ("completedAt", opt_date_string (completedAt this)) ].

Definition toJSON (this : Reminder) : value := VObj (toJSON_fields this).

(** [Reminder.fromJSON(json)] *)
Definition fromJSON (json : value) (now : PlainDateTime) (newId : string)
    : outcome Reminder :=
  title_ ← get json "title";
  description_ ← get json "description";
  priority_ ← get json "priority";
  category_ ← get json "category";
  reminder ← new title_ description_ VNull priority_ category_ now newId;
  id_ ← get json "id";
  dueDate_ ← get json "dueDate";
  due ← from_or_null dueDate_;
  isCompleted_ ← get json "isCompleted";
  createdAt_ ← get json "createdAt";
  created ← PlainDateTime_from_value createdAt_;
  completedAt_ ← get json "completedAt";
  completed ← from_or_null completedAt_;
  i ← as_string id_;
  b ← as_bool isCompleted_;
  Ret {| ident := i; title := title reminder;
         description := description reminder; dueDate := due;
         priority := priority reminder; category := category reminder;
         isCompleted := b; createdAt := created; completedAt := completed |}.

Definition validProperties : list string :=
  ["title"; "description"; "dueDate"; "priority"; "category"].

Definition includes_key (l : list string) (k : string) : bool :=
  existsb (String.eqb k) l.

Definition set_title (r : Reminder) (v : string) : Reminder :=
  {| ident := ident r; title := v; description := description r;
     dueDate := dueDate r; priority := priority r; category := category r;
     isCompleted := isCompleted r; createdAt := createdAt r;
     completedAt := completedAt r |}.

Definition set_description (r : Reminder) (v : string) : Reminder :=
  {| ident := ident r; title := title r; description := v;
     dueDate := dueDate r; priority := priority r; category := category r;
     isCompleted := isCompleted r; createdAt := createdAt r;
     completedAt := completedAt r |}.

Definition set_dueDate (r : Reminder) (v : option PlainDateTime) : Reminder :=
  {| ident := ident r; title := title r; description := description r;
     dueDate := v; priority := priority r; category := category r;
     isCompleted := isCompleted r; createdAt := createdAt r;
     completedAt := completedAt r |}.

Definition set_priority (r : Reminder) (v : Priority) : Reminder :=
  {| ident := ident r; title := title r; description := description r;
     dueDate := dueDate r; priority := v; category := category r;
     isCompleted := isCompleted r; createdAt := createdAt r;
     completedAt := completedAt r |}.

Definition set_category (r : Reminder) (v : string) : Reminder :=
  {| ident := ident r; title := title r; description := description r;
     dueDate := dueDate r; priority := priority r; category := v;
     isCompleted := isCompleted r; createdAt := createdAt r;
     completedAt := completedAt r |}.

(** One turn of the loop of [update] for a recognized key: the two checks,
    then [this[key] = value]. *)
Definition assign (this : Reminder) (key : string) (v : value) : outcome Reminder :=
  if String.eqb key "title" then
    t ← check_title v; Ret (set_title this t)
  else if String.eqb key "priority" then
    p ← check_priority v; Ret (set_priority this p)
  else if String.eqb key "description" then
    d ← as_string v; Ret (set_description this d)
  else if String.eqb key "dueDate" then
    d ← as_date_or_null v; Ret (set_dueDate this d)
  else
    c ← as_string v; Ret (set_category this c).

(** The loop of [update] over the entries, in their order.  The entity is
    mutated in place, so the record reached when a check raises is the one
    the caller is left with. *)
Fixpoint update_entries (this : Reminder) (es : list (string * value))
    : outcome unit * Reminder :=
  match es with
  | [] => (Ret tt, this)
  | (key, v) :: rest =>
      if includes_key validProperties key then
        match assign this key v with
        | Ret this' => update_entries this' rest
        | Throw e => (Throw e, this)
        | Untyped => (Untyped, this)
        end
      else update_entries this rest
  end.

(** [this.update(properties)] *)
Definition update (this : Reminder) (properties : value)
    : outcome unit * Reminder :=
  match entries properties with
  | Ret es => update_entries this es
  | Throw e => (Throw e, this)
  | Untyped => (Untyped, this)
  end.

(** [this.clone()] *)
Definition clone (this : Reminder) (now : PlainDateTime) (newId : string)
    : outcome Reminder :=
  cloned ← new (VStr (title this)) (VStr (description this))
              (opt_date (dueDate this))
              (VStr (Priority_toString (priority this)))
              (VStr (category this)) now newId;
  Ret {| ident := ident cloned; title := title cloned;
         description := description cloned; dueDate := dueDate cloned;
         priority := priority cloned; category := category cloned;
         isCompleted := isCompleted this; createdAt := createdAt this;
         completedAt := completedAt this |}.

End Methods.
End Reminder.

Section Json.

Context `{Temporal}.

(** ** JSON

    [JSON.stringify] and [JSON.parse] of the host, on the values of the
    model.  Numbers are integers: a fraction or an exponent, and a unicode
    escape in a string, leave the model ([Untyped]). *)

Definition dquote : ascii := ascii_of_nat 34.
Definition backslash : ascii := ascii_of_nat 92.

Definition hex_digit (n : nat) : ascii :=
  nth n (list_ascii_of_string "0123456789abcdef") "0"%char.

Definition escape_ascii (c : ascii) : string :=
  let n := nat_of_ascii c in
  let esc (x : ascii) := String backslash (String x EmptyString) in
  if Nat.eqb n 34 then esc dquote
  else if Nat.eqb n 92 then esc backslash
  else if Nat.eqb n 8 then esc "b"%char
  else if Nat.eqb n 9 then esc "t"%char
  else if Nat.eqb n 10 then esc "n"%char
  else if Nat.eqb n 12 then esc "f"%char
  else if Nat.eqb n 13 then esc "r"%char
  else if Nat.ltb n 32 then
    String backslash ("u00" +:+
      String (hex_digit (n / 16)) (String (hex_digit (n mod 16)) EmptyString))
  else String c EmptyString.

Fixpoint escape (s : string) : string :=
  match s with
  | EmptyString => EmptyString
  | String c s' => escape_ascii c +:+ escape s'
  end.

Definition quote (s : string) : string :=
  String dquote (escape s +:+ String dquote EmptyString).

Definition ser_atom (v : value) : option string :=
  match v with
  | VNull => Some "null"
  | VBool b => Some (if b then "true" else "false")
  | VNum n => Some (pretty n)
  | VStr s => Some (quote s)
  | VDate d => Some (quote (PlainDateTime_toString d))
  | _ => None
  end.

(** Members whose value is [undefined] are left out. *)
Definition ser_members (ser : value → option string)
    : list (string * value) → list string :=
  fix go fs :=
    match fs with
    | [] => []
    | (k, v) :: rest =>
        match ser v with
        | Some t => (quote k +:+ ":" +:+ t) :: go rest
        | None => go rest
        end
    end.

(** An [undefined] element prints as [null]. *)
Definition ser_elems (ser : value → option string)
    : list value → list string :=
  fix go l :=
    match l with
    | [] => []
    | v :: rest => default "null" (ser v) :: go rest
    end.

Definition braces (members : list string) : string :=
  "{" +:+ Str.join "," members +:+ "}".

Definition brackets (elems : list string) : string :=
  "[" +:+ Str.join "," elems +:+ "]".

(** A [Reminder] instance prints through its [toJSON] method. *)
Fixpoint ser (v : value) : option string :=
  match v with
  | VUndefined => None
  | VArr l => Some (brackets (ser_elems ser l))
  | VObj fs => Some (braces (ser_members ser fs))
  | VInst r => Some (braces (ser_members ser_atom (Reminder.toJSON_fields r)))
  | _ => ser_atom v
  end.

(** [JSON.stringify(v)], as the text [setItem] stores. *)
Definition JSON_stringify (v : value) : string := default "undefined" (ser v).

Inductive token :=
| TLBrace | TRBrace | TLBracket | TRBracket | TColon | TComma
| TString (s : string) | TNumber (n : Z) | TTrue | TFalse | TNull.

(** Scanner state; the text of a string or word is kept reversed. *)
Inductive mode :=
| Idle
| InString (acc : string)
| Escaped (acc : string)
| InNumber (neg : bool) (n : option Z)
| InWord (acc : string).

Definition digit_of (c : ascii) : option Z :=
  let n := nat_of_ascii c in
  if Nat.leb 48 n && Nat.leb n 57 then Some (Z.of_nat (n - 48)) else None.

Definition is_alpha (c : ascii) : bool :=
  let n := nat_of_ascii c in Nat.leb 97 n && Nat.leb n 122.

Definition json_space (c : ascii) : bool :=
  let n := nat_of_ascii c in
  Nat.eqb n 32 || Nat.eqb n 9 || Nat.eqb n 10 || Nat.eqb n 13.

Definition unescape (c : ascii) : option ascii :=
  let n := nat_of_ascii c in
  if Nat.eqb n 34 then Some dquote
  else if Nat.eqb n 92 then Some backslash
  else if Nat.eqb n 47 then Some "/"%char
  else if Nat.eqb n 98 then Some (ascii_of_nat 8)
  else if Nat.eqb n 116 then Some (ascii_of_nat 9)
  else if Nat.eqb n 110 then Some (ascii_of_nat 10)
  else if Nat.eqb n 102 then Some (ascii_of_nat 12)
  else if Nat.eqb n 114 then Some (ascii_of_nat 13)
  else None.

Definition punct (c : ascii) : option token :=
  let n := nat_of_ascii c in
  if Nat.eqb n 123 then Some TLBrace
  else if Nat.eqb n 125 then Some TRBrace
  else if Nat.eqb n 91 then Some TLBracket
  else if Nat.eqb n 93 then Some TRBracket
  else if Nat.eqb n 58 then Some TColon
  else if Nat.eqb n 44 then Some TComma
  else None.

Definition idle_step (c : ascii) : outcome (mode * list token) :=
  if json_space c then Ret (Idle, [])
  else match punct c with
  | Some t => Ret (Idle, [t])
  | None =>
      if Ascii.eqb c dquote then Ret (InString EmptyString, [])
      else if Ascii.eqb c "-"%char then Ret (InNumber true None, [])
      else match digit_of c with
      | Some d => Ret (InNumber false (Some d), [])
      | None =>
          if is_alpha c then Ret (InWord (String c EmptyString), [])
          else Throw SyntaxError
      end
  end.

Definition finish_number (neg : bool) (n : option Z) : outcome token :=
  match n with
  | None => Throw SyntaxError
  | Some z => Ret (TNumber (if neg then - z else z))
  end.

Definition finish_word (acc : string) : outcome token :=
  let w := Str.rev acc in
  if String.eqb w "true" then Ret TTrue
  else if String.eqb w "false" then Ret TFalse
  else if String.eqb w "null" then Ret TNull
  else Throw SyntaxError.

Definition is_fraction_mark (c : ascii) : bool :=
  Ascii.eqb c "."%char || Ascii.eqb c "e"%char || Ascii.eqb c "E"%char.

(** The scanner; [out] is the reversed list of tokens read so far. *)
Fixpoint lex (s : string) (m : mode) (out : list token) : outcome (list token) :=
  match s with
  | EmptyString =>
      match m with
      | Idle => Ret (rev out)
      | InString _ | Escaped _ => Throw SyntaxError
      | InNumber neg n => t ← finish_number neg n; Ret (rev (t :: out))
      | InWord w => t ← finish_word w; Ret (rev (t :: out))
      end
  | String c s' =>
      match m with
      | Idle => '(m', ts) ← idle_step c; lex s' m' (ts ++ out)
      | InString acc =>
          if Ascii.eqb c dquote then lex s' Idle (TString (Str.rev acc) :: out)
          else if Ascii.eqb c backslash then lex s' (Escaped acc) out
          else if Nat.ltb (nat_of_ascii c) 32 then Throw SyntaxError
          else lex s' (InString (String c acc)) out
      | Escaped acc =>
          match unescape c with
          | Some c' => lex s' (InString (String c' acc)) out
          | None => if Ascii.eqb c "u"%char then Untyped else Throw SyntaxError
          end
      | InNumber neg n =>
          match digit_of c, n with
          | Some d, None => lex s' (InNumber neg (Some d)) out
          | Some d, Some z =>
              if z =? 0 then Throw SyntaxError
              else lex s' (InNumber neg (Some (10 * z + d))) out
          | None, _ =>
              t ← finish_number neg n;
              if is_fraction_mark c then Untyped
              else '(m', ts) ← idle_step c; lex s' m' (ts ++ t :: out)
          end
      | InWord acc =>
          if is_alpha c then lex s' (InWord (String c acc)) out
          else t ← finish_word acc;
               '(m', ts) ← idle_step c; lex s' m' (ts ++ t :: out)
      end
  end.

(** A repeated key keeps its place and takes the later value. *)
Fixpoint obj_set (k : string) (v : value) (fs : list (string * value))
    : list (string * value) :=
  match fs with
  | [] => [(k, v)]
  | (k', v') :: rest =>
      if String.eqb k k' then (k, v) :: rest else (k', v') :: obj_set k v rest
  end.

(** Recursive descent on the tokens.  Each call consumes a token, so the
    fuel given by [JSON_parse] is never used up; running out is reported as
    [Untyped]. *)
Fixpoint parse_value (fuel : nat) (ts : list token) : outcome (value * list token) :=
  match fuel with
  | O => Untyped
  | S f =>
      match ts with
      | TNull :: r => Ret (VNull, r)
      | TTrue :: r => Ret (VBool true, r)
      | TFalse :: r => Ret (VBool false, r)
      | TNumber n :: r => Ret (VNum n, r)
      | TString t :: r => Ret (VStr t, r)
      | TLBracket :: TRBracket :: r => Ret (VArr [], r)
      | TLBracket :: r => parse_elems f r []
      | TLBrace :: TRBrace :: r => Ret (VObj [], r)
      | TLBrace :: r => parse_members f r []
      | _ => Throw SyntaxError
      end
  end
with parse_elems (fuel : nat) (ts : list token) (acc : list value)
    : outcome (value * list token) :=
  match fuel with
  | O => Untyped
  | S f =>
      '(v, r) ← parse_value f ts;
      match r with
      | TComma :: r' => parse_elems f r' (v :: acc)
      | TRBracket :: r' => Ret (VArr (rev (v :: acc)), r')
      | _ => Throw SyntaxError
      end
  end
with parse_members (fuel : nat) (ts : list token) (acc : list (string * value))
    : outcome (value * list token) :=
  match fuel with
  | O => Untyped
  | S f =>
      match ts with
      | TString k :: TColon :: r =>
          '(v, r1) ← parse_value f r;
          let acc' := obj_set k v acc in
          match r1 with
          | TComma :: r' => parse_members f r' acc'
          | TRBrace :: r' => Ret (VObj acc', r')
          | _ => Throw SyntaxError
          end
      | _ => Throw SyntaxError
      end
  end.

(** [JSON.parse(text)] *)
Definition JSON_parse (text : string) : outcome value :=
  ts ← lex text Idle [];
  '(v, r) ← parse_value (2 * length ts + 2) ts;
  match r with
  | [] => Ret v
  | _ => Throw SyntaxError
  end.

End Json.

(** ** The key-value store of the host

    [localStorage] may be undefined ([None]).  A store holds its items and
    an optional quota on the characters it may hold; [setItem] raises
    [QuotaExceededError] when the write would pass the quota. *)

Record Storage := mkStorage {
  items : gmap string string;
  quota : option nat
}.

Definition LocalStorage := option Storage.

Definition usage (m : gmap string string) : nat :=
  map_fold (λ k v n, (String.length k + String.length v + n)%nat) 0%nat m.

Definition fits (m : gmap string string) (q : option nat) : bool :=
  match q with
  | None => true
  | Some n => Nat.leb (usage m) n
  end.

Definition getItem (key : string) (ls : LocalStorage) : outcome (option string) :=
  match ls with
  | None => Throw ReferenceError
  | Some st => Ret (items st !! key)
  end.

Definition setItem (key text : string) (ls : LocalStorage)
    : outcome unit * LocalStorage :=
  match ls with
  | None => (Throw ReferenceError, ls)
  | Some st =>
      let m := <[key := text]> (items st) in
      if fits m (quota st) then (Ret tt, Some (mkStorage m (quota st)))
      else (Throw QuotaExceededError, ls)
  end.

Definition removeItem (key : string) (ls : LocalStorage)
    : outcome unit * LocalStorage :=
  match ls with
  | None => (Throw ReferenceError, ls)
  | Some st => (Ret tt, Some (mkStorage (delete key (items st)) (quota st)))
  end.

(** The value read at a key, if the store exists. *)
Definition stored (key : string) (ls : LocalStorage) : option string :=
  match ls with
  | None => None
  | Some st => items st !! key
  end.

(** ** The environment of a call: the clock and the id generator *)

Section Environment.

Context `{Temporal}.

(** [now] is [Temporal.Now.plainDateTimeISO()], [nowISO] is
    [new Date().toISOString()], and [genId n] is the [n]-th identifier
    produced during the call by the expression
    [`reminder_${Date.now()}_${Math.random().toString(36).substr(2, 9)}`]. *)
Record Env := mkEnv {
  now : PlainDateTime;
  nowISO : string;
  genId : nat → string
}.

(** [for (const item of v)]: arrays and strings are iterable. *)
Definition iterate (v : value) : outcome (list value) :=
  match v with
  | VArr l => Ret l
  | VStr s => Ret (chars s)
  | VUndefined | VNull | VBool _ | VNum _ | VObj _ | VInst _ => Throw TypeError
  | VDate _ => Throw TypeError
  end.

End Environment.

(** ** The [StorageLayer] class (storageLayer.js) *)

Module StorageLayer.
Section Methods.

Context `{Temporal}.

Record t := mk {
  storageKey : string;
  version : Z
}.

(** [new StorageLayer(storageKey)] *)
Definition new (storageKey : string) : t := mk storageKey 1.

Definition probe_key : string := "__localStorage_test__".

(** [static isStorageAvailable()]: a throwaway write and delete, any error
    caught. *)
Definition isStorageAvailable (ls : LocalStorage) : bool * LocalStorage :=
  match ls with
  | None => (false, ls)
  | Some _ =>
      match setItem probe_key "test" ls with
      | (Ret _, ls1) =>
          match removeItem probe_key ls1 with
          | (Ret _, ls2) => (true, ls2)
          | (_, ls2) => (false, ls2)
          end
      | (_, ls1) => (false, ls1)
      end
  end.

(** [_isStorageAvailable()] *)
Definition _isStorageAvailable (this : t) (ls : LocalStorage)
    : bool * LocalStorage :=
  isStorageAvailable ls.

(** [_normalizeReminderData(item)] *)
Definition _normalizeReminderData (item : value) (nowISO newId : string)
    : outcome value :=
  priority0 ← get item "priority";
  let priority1 :=
    match priority0 with
    | VStr s => if String.eqb s "normal" then VStr "medium" else priority0
    | _ => priority0
    end in
  let priority2 :=
    match Reminder.parse_priority priority1 with
    | Some _ => priority1
    | None => VStr "medium"
    end in
  id_ ← get item "id";
  title_ ← get item "title";
  description_ ← get item "description";
  dueDate_ ← get item "dueDate";
  category_ ← get item "category";
  isCompleted_ ← get item "isCompleted";
  createdAt_ ← get item "createdAt";
  completedAt_ ← get item "completedAt";
  Ret (VObj
    [ ("id", or_else id_ (VStr newId));
      ("title", or_else title_ (VStr ""));
      ("description", or_else description_ (VStr ""));
      ("dueDate", or_else dueDate_ VNull);
      ("priority", priority2);
      ("category", or_else category_ (VStr "general"));
      ("isCompleted", VBool (truthy isCompleted_));
      ("createdAt", or_else createdAt_ (VStr nowISO));
      ("completedAt", or_else completedAt_ VNull) ]).

(** The test of the validation loop of [save] on one element. *)
Definition check_item (reminder : value) : outcome unit :=
  if instanceof_Reminder reminder then Ret tt
  else if negb (truthy reminder) || negb (typeof_object reminder)
  then Throw (Error "Invalid reminder data")
  else
    title_ ← get reminder "title";
    if negb (truthy title_) then Throw (Error "Invalid reminder data")
    else match title_ with
         | VStr s =>
             if String.eqb (Str.trim s) ""
             then Throw (Error "Invalid reminder data")
             else Ret tt
         | _ => Throw TypeError
         end.

(** [r.toJSON()]: a method of [Reminder] instances (and of date-times);
    calling it on a value without that method raises [TypeError]. *)
Definition call_toJSON (r : value) : outcome value :=
  match r with
  | VInst r => Ret (Reminder.toJSON r)
  | VDate d => Ret (VStr (PlainDateTime_toString d))
  | _ => Throw TypeError
  end.

Definition envelope (this : t) (data : list value) : value :=
  VObj [("version", VNum (version this)); ("data", VArr data)].

(** The part of [save] between the availability test and the write. *)
Definition serialize (this : t) (reminders : value) : outcome string :=
  if negb (isArray reminders) then Throw (Error "Data must be an array")
  else
    l ← iterate reminders;
    _ ← mapM check_item l;
    data ← mapM call_toJSON l;
    Ret (JSON_stringify (envelope this data)).

(** [save(reminders)]: every exception is caught and reported as [false]. *)
Definition save (this : t) (reminders : value) (ls : LocalStorage)
    : outcome bool * LocalStorage :=
  let '(available, ls1) := _isStorageAvailable this ls in
  if negb available then (Ret false, ls1)
  else
    match serialize this reminders with
    | Ret text =>
        match setItem (storageKey this) text ls1 with
        | (Ret _, ls2) => (Ret true, ls2)
        | (Throw _, ls2) => (Ret false, ls2)
        | (Untyped, ls2) => (Untyped, ls2)
        end
    | Throw _ => (Ret false, ls1)
    | Untyped => (Untyped, ls1)
    end.

(** The body of the loops of [load] and [_migrateFromLegacy] on the
    [n]-th element: normalize, deserialize; an exception skips the
    element. *)
Definition revive (env : Env) (n : nat) (item : value)
    : outcome (option Reminder) :=
  match normalizedItem ←
          _normalizeReminderData item (nowISO env) (genId env (2 * n));
        Reminder.fromJSON normalizedItem (now env) (genId env (2 * n + 1)) with
  | Ret r => Ret (Some r)
  | Throw _ => Ret None
  | Untyped => Untyped
  end.

Fixpoint revive_from (env : Env) (n : nat) (data : list value)
    : outcome (list Reminder) :=
  match data with
  | [] => Ret []
  | item :: rest =>
      o ← revive env n item;
      reminders ← revive_from env (S n) rest;
      Ret (match o with Some r => r :: reminders | None => reminders end)
  end.

(** [_migrateFromLegacy(legacyData)] *)
Definition _migrateFromLegacy (env : Env) (legacyData : list value)
    : outcome (list Reminder) :=
  revive_from env 0 legacyData.

(** [load()]: every exception is caught and reported as the empty list. *)
Definition load (this : t) (env : Env) (ls : LocalStorage)
    : outcome (list Reminder) * LocalStorage :=
  let '(available, ls1) := _isStorageAvailable this ls in
  if negb available then (Ret [], ls1)
  else
    match getItem (storageKey this) ls1 with
    | Ret None => (Ret [], ls1)
    | Ret (Some text) =>
        if String.eqb text "" then (Ret [], ls1)
        else
          match JSON_parse text with
          | Ret (VArr legacyData) =>
              match _migrateFromLegacy env legacyData with
              | Ret migrated =>
                  match save this (VArr (VInst <$> migrated)) ls1 with
                  | (Untyped, ls2) => (Untyped, ls2)
                  | (_, ls2) => (Ret migrated, ls2)
                  end
              | Throw _ => (Ret [], ls1)
              | Untyped => (Untyped, ls1)
              end
          | Ret parsed =>
              match d ← get parsed "data";
                    data ← iterate (or_else d (VArr []));
                    revive_from env 0 data with
              | Ret reminders => (Ret reminders, ls1)
              | Throw _ => (Ret [], ls1)
              | Untyped => (Untyped, ls1)
              end
          | Throw _ => (Ret [], ls1)
          | Untyped => (Untyped, ls1)
          end
    | Throw _ => (Ret [], ls1)
    | Untyped => (Untyped, ls1)
    end.

(** [clear()] *)
Definition clear (this : t) (ls : LocalStorage) : LocalStorage :=
  let '(available, ls1) := _isStorageAvailable this ls in
  if available then snd (removeItem (storageKey this) ls1) else ls1.

Record ImportResult := mkImportResult {
  imported : nat;
  errors : list string
}.

(** The two halves of the id generator: [import] reads existing reminders
    with one and builds new ones with the other. *)
Definition evens (env : Env) : Env :=
  mkEnv (now env) (nowISO env) (λ n, genId env (2 * n)).

Definition odds (env : Env) : Env :=
  mkEnv (now env) (nowISO env) (λ n, genId env (2 * n + 1)).

(** The body of the loop of [import] on the [n]-th element. *)
Definition import_item (env : Env) (n : nat) (item : value) : outcome Reminder :=
  match item with
  | VInst r => Ret r
  | _ =>
      plain ← (if truthy item && typeof_object item
               then title_ ← get item "title"; Ret (truthy title_)
               else Ret false);
      if (plain : bool) then
        title_ ← get item "title";
        description_ ← get item "description";
        dueDate_ ← get item "dueDate";
        due ← (if truthy dueDate_
               then match dueDate_ with
                    | VStr _ =>
                        d ← PlainDateTime_from_value dueDate_; Ret (VDate d)
                    | _ => Ret dueDate_
                    end
               else Ret VNull);
        priority_ ← get item "priority";
        category_ ← get item "category";
        Reminder.new title_ (or_else description_ (VStr "")) due
          (or_else priority_ (VStr "medium"))
          (or_else category_ (VStr "general"))
          (now env) (genId env (2 * n))
      else
        normalizedItem ←
          _normalizeReminderData item (nowISO env) (genId env (2 * n));
        Reminder.fromJSON normalizedItem (now env) (genId env (2 * n + 1))
  end.

Fixpoint import_items (env : Env) (n : nat) (data : list value)
    : outcome (list Reminder * list string) :=
  match data with
  | [] => Ret ([], [])
  | item :: rest =>
      match import_item env n item with
      | Ret r =>
          '(rs, es) ← import_items env (S n) rest; Ret (r :: rs, es)
      | Throw e =>
          '(rs, es) ← import_items env (S n) rest;
          Ret (rs, ("Failed to import item: " +:+ exn_message e) :: es)
      | Untyped => Untyped
      end
  end.

(** [import(backupData)]: the format error is raised inside the [try]
    block and handled by its [catch], which returns a result. *)
Definition import (this : t) (backupData : value) (env : Env) (ls : LocalStorage)
    : outcome ImportResult * LocalStorage :=
  let caught (e : exn) := Ret (mkImportResult 0 [exn_message e]) in
  let format_error := Error "Invalid backup data format" in
  if negb (truthy backupData) then (caught format_error, ls)
  else
    match get backupData "data" with
    | Ret (VArr data) =>
        match load this (evens env) ls with
        | (Ret existingReminders, ls1) =>
            match import_items (odds env) 0 data with
            | Ret (newReminders, errs) =>
                let allReminders := existingReminders ++ newReminders in
                match save this (VArr (VInst <$> allReminders)) ls1 with
                | (Untyped, ls2) => (Untyped, ls2)
                | (_, ls2) =>
                    (Ret (mkImportResult (length newReminders) errs), ls2)
                end
            | Throw e => (caught e, ls1)
            | Untyped => (Untyped, ls1)
            end
        | (Throw e, ls1) => (caught e, ls1)
        | (Untyped, ls1) => (Untyped, ls1)
        end
    | Ret _ => (caught format_error, ls)
    | Throw e => (caught e, ls)
    | Untyped => (Untyped, ls)
    end.

(** The state of the loop of [saveWithValidation]. *)
Record Validation := mkValidation {
  saved : nat;
  skipped : nat;
  messages : list string;
  validReminders : list Reminder
}.

(** The [try] block of the loop of [saveWithValidation] on the [n]-th
    element: the entity to keep, or [None] in the last branch. *)
Definition validate_item (env : Env) (n : nat) (item : value)
    : outcome (option Reminder) :=
  match item with
  | VInst r => Ret (Some r)
  | _ =>
      if truthy item && typeof_object item then
        title_ ← get item "title";
        if truthy title_ then
          match title_ with
          | VStr s =>
              if String.eqb (Str.trim s) "" then Ret None
              else
                description_ ← get item "description";
                dueDate_ ← get item "dueDate";
                priority_ ← get item "priority";
                category_ ← get item "category";
                reminder ← Reminder.new title_ (or_else description_ (VStr ""))
                              (or_else dueDate_ VNull)
                              (or_else priority_ (VStr "medium"))
                              (or_else category_ (VStr "general"))
                              (now env) (genId env n);
                Ret (Some reminder)
          | _ => Throw TypeError
          end
        else Ret None
      else Ret None
  end.

(** One turn of the loop, with its [catch]. *)
Definition validation_step (env : Env) (n : nat) (acc : Validation) (item : value)
    : outcome Validation :=
  match validate_item env n item with
  | Ret (Some reminder) =>
      Ret (mkValidation (S (saved acc)) (skipped acc) (messages acc)
             (validReminders acc ++ [reminder]))
  | Ret None =>
      Ret (mkValidation (saved acc) (S (skipped acc))
             (messages acc ++ ["Invalid reminder data: missing or empty title"])
             (validReminders acc))
  | Throw e =>
      Ret (mkValidation (saved acc) (S (skipped acc))
             (messages acc ++ [exn_message e]) (validReminders acc))
  | Untyped => Untyped
  end.

Fixpoint validation_loop (env : Env) (n : nat) (data : list value)
    (acc : Validation) : outcome Validation :=
  match data with
  | [] => Ret acc
  | item :: rest =>
      acc' ← validation_step env n acc item;
      validation_loop env (S n) rest acc'
  end.

(** The result [{ saved, skipped, errors }]. *)
Record ValidationResult := mkValidationResult {
  r_saved : nat;
  r_skipped : nat;
  r_errors : list string
}.

(** [saveWithValidation(data)]: the loop is outside any [try], so an
    argument that cannot be iterated raises to the caller. *)
Definition saveWithValidation (this : t) (data : value) (env : Env)
    (ls : LocalStorage) : outcome ValidationResult * LocalStorage :=
  match l ← iterate data; validation_loop env 0 l (mkValidation 0 0 [] []) with
  | Ret acc =>
      match save this (VArr (VInst <$> validReminders acc)) ls with
      | (Untyped, ls1) => (Untyped, ls1)
      | (_, ls1) =>
          (Ret (mkValidationResult (saved acc) (skipped acc) (messages acc)), ls1)
      end
  | Throw e => (Throw e, ls)
  | Untyped => (Untyped, ls)
  end.

Record StorageInfo := mkStorageInfo {
  key : string;
  size : nat;
  itemCount : nat
}.

(** [getStorageInfo()] *)
Definition getStorageInfo (this : t) (env : Env) (ls : LocalStorage)
    : outcome StorageInfo * LocalStorage :=
  let nothing := mkStorageInfo (storageKey this) 0 0 in
  let '(available, ls1) := _isStorageAvailable this ls in
  if negb available then (Ret nothing, ls1)
  else
    match getItem (storageKey this) ls1 with
    | Ret found =>
        let size := match found with
                    | Some text => String.length text
                    | None => 0%nat
                    end in
        match load this env ls1 with
        | (Ret reminders, ls2) =>
            (Ret (mkStorageInfo (storageKey this) size (length reminders)), ls2)
        | (Throw _, ls2) => (Ret nothing, ls2)
        | (Untyped, ls2) => (Untyped, ls2)
        end
    | Throw _ => (Ret nothing, ls1)
    | Untyped => (Untyped, ls1)
    end.

(** [export()] *)
Definition export (this : t) (env : Env) (ls : LocalStorage)
    : outcome value * LocalStorage :=
  match load this env ls with
  | (Ret reminders, ls1) =>
      (Ret (VObj [ ("version", VNum (version this));
                   ("exportedAt", VStr (nowISO env));
                   ("data", VArr (Reminder.toJSON <$> reminders)) ]), ls1)
  | (Throw e, ls1) => (Throw e, ls1)
  | (Untyped, ls1) => (Untyped, ls1)
  end.

End Methods.
End StorageLayer.

(** ** The [ReminderManager] class *)

Module ReminderManager.
Section Methods.

Context `{Temporal}.

(** The collection holds its entities by value, in insertion order. *)
Record t := mk {
  storageKey : string;
  reminders : list Reminder
}.

Definition with_reminders (this : t) (l : list Reminder) : t :=
  mk (storageKey this) l.

(** [save()]: the serialized entities are written as a bare array; an
    exception of the store is caught and logged. *)
Definition save (this : t) (ls : LocalStorage) : LocalStorage :=
  let data := Reminder.toJSON <$> reminders this in
  snd (setItem (storageKey this) (JSON_stringify (VArr data)) ls).

(** [parsed.map(...)]: only an array has the method. *)
Definition array_of (parsed : value) : outcome (list value) :=
  match parsed with
  | VArr l => Ret l
  | _ => Throw TypeError
  end.

Fixpoint fromJSON_from (env : Env) (n : nat) (data : list value)
    : outcome (list Reminder) :=
  match data with
  | [] => Ret []
  | item :: rest =>
      r ← Reminder.fromJSON item (now env) (genId env n);
      rs ← fromJSON_from env (S n) rest;
      Ret (r :: rs)
  end.

(** [load()]: replaces the collection; any exception empties it. *)
Definition load (this : t) (env : Env) (ls : LocalStorage) : outcome t :=
  match getItem (storageKey this) ls with
  | Ret None => Ret (with_reminders this [])
  | Ret (Some data) =>
      if String.eqb data "" then Ret (with_reminders this [])
      else
        match parsed ← JSON_parse data;
              l ← array_of parsed;
              fromJSON_from env 0 l with
        | Ret rs => Ret (with_reminders this rs)
        | Throw _ => Ret (with_reminders this [])
        | Untyped => Untyped
        end
  | Throw _ => Ret (with_reminders this [])
  | Untyped => Untyped
  end.

(** [new ReminderManager(storageKey)] *)
Definition new (storageKey : string) (env : Env) (ls : LocalStorage) : outcome t :=
  load (mk storageKey []) env ls.

(** The entity [add] is about to push: the argument itself, or one built
    from its fields. *)
Definition make (reminderData : value) (env : Env) : outcome Reminder :=
  match reminderData with
  | VInst r => Ret r
  | _ =>
      if truthy reminderData && typeof_object reminderData then
        title_ ← get reminderData "title";
        if truthy title_ then
          description_ ← get reminderData "description";
          dueDate_ ← get reminderData "dueDate";
          priority_ ← get reminderData "priority";
          category_ ← get reminderData "category";
          Reminder.new title_ description_ dueDate_ priority_ category_
            (now env) (genId env 0)
        else Throw (Error "Invalid reminder")
      else Throw (Error "Invalid reminder")
  end.

(** [add(reminderData)] *)
Definition add (this : t) (reminderData : value) (env : Env) (ls : LocalStorage)
    : outcome Reminder * t * LocalStorage :=
  match make reminderData env with
  | Ret reminder =>
      let this' := with_reminders this (reminders this ++ [reminder]) in
      (Ret reminder, this', save this' ls)
  | Throw e => (Throw e, this, ls)
  | Untyped => (Untyped, this, ls)
  end.

Definition shift (k : nat) (env : Env) : Env :=
  mkEnv (now env) (nowISO env) (λ n, genId env (k + n)%nat).

Fixpoint addMultiple_from (this : t) (k : nat) (data : list value) (env : Env)
    (ls : LocalStorage) : outcome (list Reminder) * t * LocalStorage :=
  match data with
  | [] => (Ret [], this, ls)
  | reminderData :: rest =>
      match add this reminderData (shift k env) ls with
      | (Ret r, this1, ls1) =>
          match addMultiple_from this1 (S k) rest env ls1 with
          | (Ret rs, this2, ls2) => (Ret (r :: rs), this2, ls2)
          | other => other
          end
      | (Throw e, this1, ls1) => (Throw e, this1, ls1)
      | (Untyped, this1, ls1) => (Untyped, this1, ls1)
      end
  end.

(** [addMultiple(reminders)] *)
Definition addMultiple (this : t) (data : value) (env : Env) (ls : LocalStorage)
    : outcome (list Reminder) * t * LocalStorage :=
  match iterate data with
  | Ret l => addMultiple_from this 0 l env ls
  | Throw e => (Throw e, this, ls)
  | Untyped => (Untyped, this, ls)
  end.

Definition find_id (id : string) (l : list Reminder) : option (nat * Reminder) :=
  list_find (λ r, ident r = id) l.

(** [remove(id)] *)
Definition remove (this : t) (id : string) (ls : LocalStorage)
    : option Reminder * t * LocalStorage :=
  match find_id id (reminders this) with
  | None => (None, this, ls)
  | Some (index, removed) =>
      let this' := with_reminders this (delete index (reminders this)) in
      (Some removed, this', save this' ls)
  end.

(** [removeCompleted()] *)
Definition removeCompleted (this : t) (ls : LocalStorage) : nat * t * LocalStorage :=
  let completedReminders := List.filter isCompleted (reminders this) in
  let this' := with_reminders this
                 (List.filter (λ r, negb (isCompleted r)) (reminders this)) in
  (length completedReminders, this', save this' ls).

(** [clear()] *)
Definition clear (this : t) (ls : LocalStorage) : t * LocalStorage :=
  let this' := with_reminders this [] in
  (this', save this' ls).

(** [getAll()] *)
Definition getAll (this : t) : list Reminder := reminders this.

(** [getById(id)] *)
Definition getById (this : t) (id : string) : option Reminder :=
  snd <$> find_id id (reminders this).

(** [update(id, updates)]: the entity found is updated in place; an
    exception of its [update] leaves it as it was when the check raised,
    and nothing is saved. *)
Definition update (this : t) (id : string) (updates : value) (ls : LocalStorage)
    : outcome (option Reminder) * t * LocalStorage :=
  match find_id id (reminders this) with
  | None => (Ret None, this, ls)
  | Some (index, reminder) =>
      let '(o, reminder') := Reminder.update reminder updates in
      let this' := with_reminders this (<[index := reminder']> (reminders this)) in
      match o with
      | Ret _ => (Ret (Some reminder'), this', save this' ls)
      | Throw e => (Throw e, this', ls)
      | Untyped => (Untyped, this', ls)
      end
  end.

(** [search(query)] *)
Definition search (this : t) (query : string) : list Reminder :=
  if String.eqb query "" then []
  else
    let searchTerm := Str.toLowerCase query in
    List.filter (λ r,
        Str.includes (Str.toLowerCase (title r)) searchTerm
        || Str.includes (Str.toLowerCase (description r)) searchTerm)
      (reminders this).

(** [a < b] on the values a field of an entity can hold: strings compare
    by their characters, booleans as numbers, [undefined] with nothing. *)
Definition lt_value (a b : value) : outcome bool :=
  match a, b with
  | VStr x, VStr y => Ret (String.ltb x y)
  | VBool x, VBool y => Ret (negb x && y)
  | VUndefined, VUndefined => Ret false
  | _, _ => Untyped
  end.

Definition priorityOrder (p : Priority) : Z :=
  match p with high => 3 | medium => 2 | low => 1 end.

(** The end of the comparator of [sortBy], on [aValue] and [bValue]. *)
Definition by_values (order : string) (aValue bValue : value) : outcome Z :=
  lt ← lt_value aValue bValue;
  if (lt : bool) then Ret (if String.eqb order "asc" then -1 else 1)
  else
    gt ← lt_value bValue aValue;
    if (gt : bool) then Ret (if String.eqb order "asc" then 1 else -1)
    else Ret 0.

Definition compare_dates (a b : option PlainDateTime) : Z :=
  match a, b with
  | None, None => 0
  | None, Some _ => 1
  | Some _, None => -1
  | Some x, Some y => PlainDateTime_compare x y
  end.

(** The comparator of [sortBy]. *)
Definition comparator (field order : string) (a b : Reminder) : outcome Z :=
  if String.eqb field "title" then
    by_values order (VStr (Str.toLowerCase (title a)))
                    (VStr (Str.toLowerCase (title b)))
  else if String.eqb field "dueDate" then
    Ret (compare_dates (dueDate a) (dueDate b))
  else if String.eqb field "priority" then
    Ret (priorityOrder (priority b) - priorityOrder (priority a))
  else if String.eqb field "createdAt" then
    Ret (PlainDateTime_compare (createdAt a) (createdAt b))
  else
    by_values order (assoc field (instance_fields a))
                    (assoc field (instance_fields b)).

(** [Array.prototype.sort(compare)] is stable: the result is the stable
    arrangement of the elements by [compare], computed here by insertion
    from the right. *)
Fixpoint insert {A} (compare : A → A → outcome Z) (x : A) (l : list A)
    : outcome (list A) :=
  match l with
  | [] => Ret [x]
  | y :: l' =>
      c ← compare x y;
      if c <=? 0 then Ret (x :: y :: l')
      else l'' ← insert compare x l'; Ret (y :: l'')
  end.

Fixpoint sort {A} (compare : A → A → outcome Z) (l : list A) : outcome (list A) :=
  match l with
  | [] => Ret []
  | x :: l' => sorted ← sort compare l'; insert compare x sorted
  end.

(** [sortBy(field, order)]: a copy of the collection is sorted; the result
    is paired with the manager as the call leaves it. *)
Definition sortBy (this : t) (field order : string) : outcome (list Reminder) * t :=
  let sorted := reminders this in
  (sort (comparator field order) sorted, this).

(** [import(jsonData)] *)
Definition import (this : t) (jsonData : string) (env : Env) (ls : LocalStorage)
    : outcome nat * t * LocalStorage :=
  match parsed ← JSON_parse jsonData;
        l ← array_of parsed;
        fromJSON_from env 0 l with
  | Ret importedReminders =>
      let this' := with_reminders this (reminders this ++ importedReminders) in
      (Ret (length importedReminders), this', save this' ls)
  | Throw _ => (Ret 0%nat, this, ls)
  | Untyped => (Untyped, this, ls)
  end.

(** *** Queries and statistics *)

(** [getActive()] *)
Definition getActive (this : t) : list Reminder :=
  List.filter (λ r, negb (isCompleted r)) (reminders this).

(** [getCompleted()] *)
Definition getCompleted (this : t) : list Reminder :=
  List.filter isCompleted (reminders this).

(** The loop of [getOverdue]: each call of [isOverdue] reads the clock
    anew; [clock n] is the reading made for the [n]-th entity. *)
Fixpoint overdue_from (clock : nat → PlainDateTime) (n : nat) (l : list Reminder)
    : list Reminder :=
  match l with
  | [] => []
  | r :: rest =>
      if Reminder.isOverdue r (clock n) then r :: overdue_from clock (S n) rest
      else overdue_from clock (S n) rest
  end.

(** [getOverdue()] *)
Definition getOverdue (this : t) (clock : nat → PlainDateTime) : list Reminder :=
  overdue_from clock 0 (reminders this).

(** [getUpcoming(days)]: [now] is the one reading of the clock and
    [futureLimit] the library's [now.add({ days })]. *)
Definition getUpcoming (this : t) (now futureLimit : PlainDateTime)
    : list Reminder :=
  List.filter (λ r,
      match dueDate r with
      | None => false
      | Some d =>
          if isCompleted r then false
          else (PlainDateTime_compare d now >=? 0)
               && (PlainDateTime_compare d futureLimit <=? 0)
      end)
    (reminders this).

(** [s === v] for a string [s] *)
Definition strict_equals (s : string) (v : value) : bool :=
  match v with
  | VStr t => String.eqb s t
  | _ => false
  end.

(** [getByCategory(category)] *)
Definition getByCategory (this : t) (category_ : value) : list Reminder :=
  List.filter (λ r, strict_equals (category r) category_) (reminders this).

(** [getByPriority(priority)] *)
Definition getByPriority (this : t) (priority_ : value) : list Reminder :=
  List.filter (λ r, strict_equals (Priority_toString (priority r)) priority_)
    (reminders this).

(** [count()] *)
Definition count (this : t) : nat := length (reminders this).

(** [countActive()] *)
Definition countActive (this : t) : nat := length (getActive this).

(** [countCompleted()] *)
Definition countCompleted (this : t) : nat := length (getCompleted this).

(** [countOverdue()] *)
Definition countOverdue (this : t) (clock : nat → PlainDateTime) : nat :=
  length (getOverdue this clock).

(** The names every object inherits from [Object.prototype]: read on the
    fresh object [{}] they give the inherited member, not [undefined]. *)
Definition inherited : list string :=
  [ "constructor"; "toString"; "toLocaleString"; "valueOf"; "hasOwnProperty";
    "isPrototypeOf"; "propertyIsEnumerable"; "__proto__"; "__defineGetter__";
    "__defineSetter__"; "__lookupGetter__"; "__lookupSetter__" ].

(** [counts[key] = (counts[key] || 0) + 1]; on an inherited name the sum
    is no number, which the model does not follow. *)
Definition tally (key : string) (counts : gmap string nat)
    : outcome (gmap string nat) :=
  if bool_decide (key ∈ inherited) then Untyped
  else Ret (<[key := S (default 0%nat (counts !! key))]> counts).

Fixpoint count_by (key : Reminder → string) (l : list Reminder)
    (counts : gmap string nat) : outcome (gmap string nat) :=
  match l with
  | [] => Ret counts
  | r :: rest => counts' ← tally (key r) counts; count_by key rest counts'
  end.

(** [countByCategory()] *)
Definition countByCategory (this : t) : outcome (gmap string nat) :=
  count_by category (reminders this) ∅.

(** [countByPriority()] *)
Definition countByPriority (this : t) : outcome (gmap string nat) :=
  count_by (λ r, Priority_toString (priority r)) (reminders this) ∅.

Record Statistics := mkStatistics {
  total : nat;
  active : nat;
  completed : nat;
  overdue : nat;
  byCategory : gmap string nat;
  byPriority : gmap string nat
}.

(** [getStatistics()] *)
Definition getStatistics (this : t) (clock : nat → PlainDateTime)
    : outcome Statistics :=
  categories ← countByCategory this;
  priorities ← countByPriority this;
  Ret (mkStatistics (count this) (countActive this) (countCompleted this)
         (countOverdue this clock) categories priorities).

(** *** Sequences of mutations *)

Inductive mutation :=
| Add (reminderData : value)
| AddMultiple (data : value)
| Remove (id : string)
| RemoveCompleted
| Clear
| Update (id : string) (updates : value)
| Import (jsonData : string).

(** Of a result, whether the call returned, raised or left the model. *)
Definition status {A} (o : outcome A) : outcome unit := o ≫= λ _, Ret tt.

(** One mutation, with the status of its result. *)
Definition apply (op : mutation) (env : Env) (this : t) (ls : LocalStorage)
    : outcome unit * t * LocalStorage :=
  match op with
  | Add reminderData =>
      let '(o, this', ls') := add this reminderData env ls in
      (status o, this', ls')
  | AddMultiple data =>
      let '(o, this', ls') := addMultiple this data env ls in
      (status o, this', ls')
  | Remove id =>
      let '(_, this', ls') := remove this id ls in (Ret tt, this', ls')
  | RemoveCompleted =>
      let '(_, this', ls') := removeCompleted this ls in (Ret tt, this', ls')
  | Clear =>
      let '(this', ls') := clear this ls in (Ret tt, this', ls')
  | Update id updates =>
      let '(o, this', ls') := update this id updates ls in
      (status o, this', ls')
  | Import jsonData =>
      let '(o, this', ls') := import this jsonData env ls in
      (status o, this', ls')
  end.

(** A sequence of mutations, each with the environment it runs in; the
    caller goes on after a mutation that raised. *)
Fixpoint run (ops : list (mutation * Env)) (this : t) (ls : LocalStorage)
    : list (outcome unit) * t * LocalStorage :=
  match ops with
  | [] => ([], this, ls)
  | (op, env) :: rest =>
      let '(o, this1, ls1) := apply op env this ls in
      let '(os, this2, ls2) := run rest this1 ls1 in
      (o :: os, this2, ls2)
  end.

End Methods.
End ReminderManager.

(** ** Vocabulary of the properties *)

Section Vocabulary.

Context `{Temporal}.

(** [completedAt] is non-null exactly when [isCompleted] is true. *)
Definition completion_invariant (r : Reminder) : Prop :=
  completedAt r ≠ None ↔ isCompleted r = true.

(** A stored record whose [completedAt] is present exactly when its
    [isCompleted] is [true]. *)
Definition consistent_record (json : value) : Prop :=
  ∀ ca ic, get json "completedAt" = Ret ca → get json "isCompleted" = Ret ic →
           (truthy ca = true ↔ ic = VBool true).

Definition any_record (json : value) : Prop := True.

(** The entities the public operations of [Reminder] produce, from stored
    records that satisfy [ok]. *)
Inductive reachable (ok : value → Prop) : Reminder → Prop :=
| reach_new title_ description_ dueDate_ priority_ category_ now newId r :
    Reminder.new title_ description_ dueDate_ priority_ category_ now newId = Ret r →
    reachable ok r
| reach_markComplete r completed now :
    reachable ok r → reachable ok (Reminder.markComplete r completed now)
| reach_update r properties :
    reachable ok r → reachable ok (snd (Reminder.update r properties))
| reach_clone r now newId r' :
    reachable ok r → Reminder.clone r now newId = Ret r' → reachable ok r'
| reach_fromJSON json now newId r :
    ok json → Reminder.fromJSON json now newId = Ret r → reachable ok r
| reach_normalized item nowISO newId json now newId' r :
    StorageLayer._normalizeReminderData item nowISO newId = Ret json →
    ok json → Reminder.fromJSON json now newId' = Ret r → reachable ok r.

(** The fields [update] never assigns. *)
Definition same_identity (a b : Reminder) : Prop :=
  ident a = ident b ∧ isCompleted a = isCompleted b ∧
  createdAt a = createdAt b ∧ completedAt a = completedAt b.

Definition recognized (e : string * value) : bool :=
  Reminder.includes_key Reminder.validProperties (fst e).

(** A date-time that prints to a non-empty text which parses back to it. *)
Definition prints_and_parses (d : PlainDateTime) : Prop :=
  PlainDateTime_toString d ≠ "" ∧
  PlainDateTime_from (PlainDateTime_toString d) = Some d.






(** The value stored under the manager's key is the bare array of the
    serialized entities of its collection. *)
Definition persisted (this : ReminderManager.t) (ls : LocalStorage) : Prop :=
  stored (ReminderManager.storageKey this) ls
  = Some (JSON_stringify
            (VArr (Reminder.toJSON <$> ReminderManager.reminders this))).

(** The value stored under the manager's key is the version-1 envelope of
    the serialized entities of its collection. *)
Definition persisted_in_envelope (this : ReminderManager.t) (ls : LocalStorage)
    : Prop :=
  stored (ReminderManager.storageKey this) ls
  = Some (JSON_stringify
            (StorageLayer.envelope
               (StorageLayer.new (ReminderManager.storageKey this))
               (Reminder.toJSON <$> ReminderManager.reminders this))).

(** A store that exists and has no quota: it accepts every write. *)
Definition unbounded (ls : LocalStorage) : Prop :=
  ∃ st, ls = Some st ∧ quota st = None.

(** A complete legacy record: the nine fields of the legacy format, dates
    as texts. *)
Record LegacyRecord := mkLegacyRecord {
  l_id : string;
  l_title : string;
  l_description : string;
  l_dueDate : option string;
  l_priority : string;
  l_category : string;
  l_isCompleted : bool;
  l_createdAt : string;
  l_completedAt : option string
}.

Definition opt_text (o : option string) : value :=
  match o with Some t => VStr t | None => VNull end.

(** The parsed value [v] has the nine fields of [rec] (in any order). *)
Definition describes (v : value) (rec : LegacyRecord) : Prop :=
  get v "id" = Ret (VStr (l_id rec)) ∧
  get v "title" = Ret (VStr (l_title rec)) ∧
  get v "description" = Ret (VStr (l_description rec)) ∧
  get v "dueDate" = Ret (opt_text (l_dueDate rec)) ∧
  get v "priority" = Ret (VStr (l_priority rec)) ∧
  get v "category" = Ret (VStr (l_category rec)) ∧
  get v "isCompleted" = Ret (VBool (l_isCompleted rec)) ∧
  get v "createdAt" = Ret (VStr (l_createdAt rec)) ∧
  get v "completedAt" = Ret (opt_text (l_completedAt rec)).

(** The entity equals the record field for field, date texts parsed. *)
Definition agrees (r : Reminder) (rec : LegacyRecord) : Prop :=
  ident r = l_id rec ∧
  title r = l_title rec ∧
  description r = l_description rec ∧
  dueDate r = l_dueDate rec ≫= PlainDateTime_from ∧
  Priority_toString (priority r) = l_priority rec ∧
  category r = l_category rec ∧
  isCompleted r = l_isCompleted rec ∧
  Some (createdAt r) = PlainDateTime_from (l_createdAt rec) ∧
  completedAt r = l_completedAt rec ≫= PlainDateTime_from.

Definition date_text (t : string) : Prop :=
  t ≠ "" ∧ is_Some (PlainDateTime_from t).

(** The record of a valid entity: a title that is not blank, one of the
    three priorities, date texts that parse. *)
Definition valid_record (rec : LegacyRecord) : Prop :=
  Str.trim (l_title rec) ≠ "" ∧
  In (l_priority rec) ["low"; "medium"; "high"] ∧
  date_text (l_createdAt rec) ∧
  (∀ t, l_dueDate rec = Some t → date_text t) ∧
  (∀ t, l_completedAt rec = Some t → date_text t).

(** The record leaves no field for normalization to default. *)
Definition nothing_to_default (rec : LegacyRecord) : Prop :=
  l_id rec ≠ "" ∧ l_category rec ≠ "".

(** The outcome of a mutation the persistence property speaks of: the
    mutation returned, or it raised and is no [update] (an [update] that
    raises may leave its entity changed without saving). *)
Definition settled (op : ReminderManager.mutation) (o : outcome unit) : Prop :=
  match o with
  | Ret _ => True
  | Throw _ => ∀ id updates, op ≠ ReminderManager.Update id updates
  | Untyped => False
  end.

End Vocabulary.

(** ** Sample data

    Concrete entities, records and stores, over the reference date-time
    implementation [Iso], on which the properties are evaluated. *)

Module Sample.

#[local] Existing Instance Iso.temporal.

Definition clock : PlainDateTime := Iso.mkDateTime 2026 11 2 12 0 0.

Definition env : Env :=
  mkEnv clock "2026-11-02T12:00:00.000Z" (λ n, "reminder_" +:+ pretty n).

Definition empty_store : LocalStorage := Some (mkStorage ∅ None).

(** [new Reminder('Test task', 'Test description', futureDate, 'high', 'work')] *)
Definition futureDate : PlainDateTime := Iso.mkDateTime 2026 12 25 15 30 0.

Definition task : Reminder :=
  {| ident := "reminder_0"; title := "Test task";
     description := "Test description"; dueDate := Some futureDate;
     priority := high; category := "work"; isCompleted := false;
     createdAt := clock; completedAt := None |}.

(** [{ description: 'changed', title: '' }] *)
Definition bad_update : value :=
  VObj [("description", VStr "changed"); ("title", VStr "")].

(** A reminder due twenty-five hours before [clock]. *)
Definition overdue : Reminder :=
  {| ident := "reminder_1"; title := "Overdue task";
     description := "This task is overdue";
     dueDate := Some (Iso.mkDateTime 2026 11 1 11 0 0);
     priority := high; category := "work"; isCompleted := false;
     createdAt := Iso.mkDateTime 2026 10 1 9 0 0; completedAt := None |}.

(** A stored record of a completed reminder that has no [completedAt]. *)
Definition completed_record : value :=
  VObj [("id", VStr "legacy_1"); ("title", VStr "Legacy Task");
        ("priority", VStr "normal"); ("isCompleted", VBool true);
        ("createdAt", VStr "2024-01-01T10:00:00")].

Definition manager : ReminderManager.t := ReminderManager.mk "reminders" [].

(** [{ title: 'Buy groceries', category: '' }] *)
Definition groceries : value :=
  VObj [("title", VStr "Buy groceries"); ("category", VStr "")].

(** The store after [manager.add(groceries)]: a legacy bare array. *)
Definition legacy_store : LocalStorage :=
  (ReminderManager.add manager groceries env empty_store).2.

Definition groceries_record : LegacyRecord :=
  {| l_id := "reminder_0"; l_title := "Buy groceries"; l_description := "";
     l_dueDate := None; l_priority := "medium"; l_category := "";
     l_isCompleted := false; l_createdAt := "2026-11-02T12:00:00";
     l_completedAt := None |}.

(** The record of the migration test of the repository, completed with
    its two null dates, and the store that holds it as a bare array. *)
Definition legacy_record : LegacyRecord :=
  {| l_id := "legacy_1"; l_title := "Legacy Task";
     l_description := "Old format"; l_dueDate := None;
     l_priority := "medium"; l_category := "general";
     l_isCompleted := false; l_createdAt := "2024-01-01T10:00:00";
     l_completedAt := None |}.

Definition legacy_value : value :=
  VObj [("id", VStr "legacy_1"); ("title", VStr "Legacy Task");
        ("description", VStr "Old format"); ("dueDate", VNull);
        ("priority", VStr "medium"); ("category", VStr "general");
        ("isCompleted", VBool false);
        ("createdAt", VStr "2024-01-01T10:00:00"); ("completedAt", VNull)].

Definition legacy_text : string := JSON_stringify (VArr [legacy_value]).

Definition test_store : Storage :=
  mkStorage {[ "test-reminders" := legacy_text ]} None.

Definition layer : StorageLayer.t := StorageLayer.new "test-reminders".

(** A layer whose key is the key of the availability probe, over a store
    that holds a value under it. *)
Definition probe_layer : StorageLayer.t :=
  StorageLayer.new "__localStorage_test__".

Definition probe_store : LocalStorage :=
  Some (mkStorage {[ "__localStorage_test__" := "[]" ]} None).

(** [[{ title: 'Valid Task 2', description: 'Valid data' }]] *)
Definition plain_records : list value :=
  [VObj [("title", VStr "Valid Task 2"); ("description", VStr "Valid data")]].

(** A backup whose [data] is no array. *)
Definition malformed_backup : value :=
  VObj [("version", VNum 1); ("data", VStr "Imported Task")].

Definition mutations : list (ReminderManager.mutation * Env) :=
  [ (ReminderManager.Add groceries, env);
    (ReminderManager.Update "reminder_0" (VObj [("priority", VStr "high")]), env);
    (ReminderManager.Import legacy_text, env);
    (ReminderManager.Remove "legacy_1", env) ].

(** The outcomes, the manager and the store after [mutations]. *)
Definition final : list (outcome unit) * ReminderManager.t * LocalStorage :=
  ReminderManager.run mutations manager empty_store.

(** The entity deserialized from [completed_record]. *)
Definition completed : Reminder :=
  {| ident := "legacy_1"; title := "Legacy Task"; description := "";
     dueDate := None; priority := medium; category := "general";
     isCompleted := true; createdAt := Iso.mkDateTime 2024 1 1 10 0 0;
     completedAt := None |}.

Definition meetings : ReminderManager.t :=
  ReminderManager.mk "reminders"
    [ {| ident := "reminder_2"; title := "Meeting with team";
         description := "Weekly team sync"; dueDate := Some futureDate;
         priority := low; category := "work"; isCompleted := false;
         createdAt := clock; completedAt := None |};
      task;
      {| ident := "reminder_3"; title := "Call mom"; description := "";
         dueDate := None; priority := medium; category := "personal";
         isCompleted := false; createdAt := clock; completedAt := None |} ].

(** The stored envelope of the test 'should normalize old priority
    values', and the backup of the test 'should import data'. *)
Definition old_envelope : value :=
  VObj [("version", VNum 1);
        ("data", VArr [VObj [("id", VStr "old_1"); ("title", VStr "Old Task");
                             ("priority", VStr "normal");
                             ("isCompleted", VBool false);
                             ("createdAt", VStr "2024-01-01T10:00:00")]])].

Definition old_store : LocalStorage :=
  Some (mkStorage {[ "test-reminders" := JSON_stringify old_envelope ]} None).

Definition backup : value :=
  VObj [("version", VNum 1); ("exportedAt", VStr "2024-01-01T10:00:00");
        ("data", VArr [VObj [("title", VStr "Imported Task");
                             ("description", VStr "From backup")]])].

End Sample.

(** * Properties *)

Ltac bind_inv H :=
  repeat match type of H with
  | context [mbind _ ?m] =>
      let E := fresh "E" in
      destruct m eqn:E; cbn [mbind outcome_bind] in H; try discriminate H
  | (?m ≫= _) = _ =>
      let E := fresh "E" in
      destruct m eqn:E; cbn [mbind outcome_bind] in H; try discriminate H
  end.

Section Properties.

Context `{Temporal}.

(** *** The fuel of the parser

    Each call of the parser consumes a token, so the fuel [JSON_parse] gives
    is enough: it leaves the model only where the scanner does (a
    fraction, an exponent, a unicode escape). *)

Lemma parse_consumes fuel :
  (∀ ts v r, parse_value fuel ts = Ret (v, r) → (length r < length ts)%nat) ∧
  (∀ ts acc v r, parse_elems fuel ts acc = Ret (v, r) → (length r < length ts)%nat) ∧
  (∀ ts acc v r, parse_members fuel ts acc = Ret (v, r) → (length r < length ts)%nat).
Proof.
  induction fuel as [|f (IHv & IHe & IHm)]; [repeat split; intros; discriminate|].
  split; [|split].
  - intros ts v r Hp. cbn [parse_value] in Hp.
    destruct ts as [|t ts]; [discriminate|].
    destruct t; try discriminate Hp;
      try (injection Hp as <- <-; cbn; lia).
    + destruct ts as [|t' ts']; [apply IHm in Hp; cbn in *; lia|].
      destruct t'; try (injection Hp as <- <-; cbn; lia);
        apply IHm in Hp; cbn in *; lia.
    + destruct ts as [|t' ts']; [apply IHe in Hp; cbn in *; lia|].
      destruct t'; try (injection Hp as <- <-; cbn; lia);
        apply IHe in Hp; cbn in *; lia.
  - intros ts acc v r Hp. cbn [parse_elems] in Hp.
    destruct (parse_value f ts) as [[v1 r1]| |] eqn:Hv; try discriminate Hp.
    cbn [mbind outcome_bind] in Hp. apply IHv in Hv.
    destruct r1 as [|t r1]; [discriminate|].
    destruct t; try discriminate Hp.
    + injection Hp as <- <-. cbn in *. lia.
    + apply IHe in Hp. cbn in *. lia.
  - intros ts acc v r Hp. cbn [parse_members] in Hp.
    destruct ts as [|t ts]; [discriminate|].
    destruct t; try discriminate Hp.
    destruct ts as [|t ts]; [discriminate|].
    destruct t; try discriminate Hp.
    destruct (parse_value f ts) as [[v1 r1]| |] eqn:Hv; try discriminate Hp.
    cbn [mbind outcome_bind] in Hp. apply IHv in Hv.
    destruct r1 as [|t r1]; [discriminate|].
    destruct t; try discriminate Hp.
    + injection Hp as <- <-. cbn in *. lia.
    + apply IHm in Hp. cbn in *. lia.
Qed.

Lemma parse_fuel fuel :
  (∀ ts, (2 * length ts < fuel)%nat → parse_value fuel ts ≠ Untyped) ∧
  (∀ ts acc, (2 * length ts + 1 < fuel)%nat → parse_elems fuel ts acc ≠ Untyped) ∧
  (∀ ts acc, (2 * length ts + 1 < fuel)%nat → parse_members fuel ts acc ≠ Untyped).
Proof.
  induction fuel as [|f (IHv & IHe & IHm)]; [repeat split; intros; lia|].
  split; [|split].
  - intros ts Hf. cbn [parse_value].
    destruct ts as [|t ts]; [discriminate|].
    destruct t; try discriminate.
    + destruct ts as [|t' ts']; [apply IHm; cbn in *; lia|].
      destruct t'; try discriminate; apply IHm; cbn in *; lia.
    + destruct ts as [|t' ts']; [apply IHe; cbn in *; lia|].
      destruct t'; try discriminate; apply IHe; cbn in *; lia.
  - intros ts acc Hf. cbn [parse_elems].
    pose proof (IHv ts) as Hv. pose proof (proj1 (parse_consumes f) ts) as Hc.
    destruct (parse_value f ts) as [[v1 r1]| |]; cbn [mbind outcome_bind];
      [|discriminate|apply Hv; lia].
    specialize (Hc _ _ eq_refl).
    destruct r1 as [|t r1]; [discriminate|].
    destruct t; try discriminate. apply IHe. cbn in *. lia.
  - intros ts acc Hf. cbn [parse_members].
    destruct ts as [|t ts]; [discriminate|].
    destruct t; try discriminate.
    destruct ts as [|t ts]; [discriminate|].
    destruct t; try discriminate.
    pose proof (IHv ts) as Hv. pose proof (proj1 (parse_consumes f) ts) as Hc.
    destruct (parse_value f ts) as [[v1 r1]| |]; cbn [mbind outcome_bind];
      [|discriminate|apply Hv; cbn in *; lia].
    specialize (Hc _ _ eq_refl).
    destruct r1 as [|t r1]; [discriminate|].
    destruct t; try discriminate. apply IHm. cbn in *. lia.
Qed.

Lemma JSON_parse_fuel text ts :
  lex text Idle [] = Ret ts → JSON_parse text ≠ Untyped.
Proof.
  intros Hl. unfold JSON_parse. rewrite Hl. cbn [mbind outcome_bind].
  pose proof (proj1 (parse_fuel (2 * length ts + 2)) ts) as Hf.
  destruct (parse_value (2 * length ts + 2) ts) as [[v r]| |];
    cbn [mbind outcome_bind]; [now destruct r|discriminate|].
  exfalso. apply Hf; [lia|reflexivity].
Qed.
(** *** Construction *)

Lemma new_fields title_ description_ dueDate_ priority_ category_ now newId r :
  Reminder.new title_ description_ dueDate_ priority_ category_ now newId = Ret r →
  isCompleted r = false ∧ completedAt r = None ∧ ident r = newId ∧ createdAt r = now.
Proof.
  unfold Reminder.new. intros Hn. bind_inv Hn.
  injection Hn as <-. auto.
Qed.

(** *** The completion invariant *)

Lemma markComplete_invariant r completed now :
  completion_invariant (Reminder.markComplete r completed now).
Proof.
  unfold completion_invariant, Reminder.markComplete; cbn.
  destruct completed as [[]|], (isCompleted r); cbn; split; congruence.
Qed.

Lemma same_identity_refl r : same_identity r r.
Proof. repeat split. Qed.

Lemma same_identity_trans a b c :
  same_identity a b → same_identity b c → same_identity a c.
Proof. unfold same_identity. intuition congruence. Qed.

Lemma assign_same_identity this key v this' :
  Reminder.assign this key v = Ret this' → same_identity this this'.
Proof.
  unfold Reminder.assign. intros Ha.
  repeat match type of Ha with
         | (if ?b then _ else _) = _ => destruct b
         end;
    bind_inv Ha; injection Ha as <-; repeat split.
Qed.

Lemma update_entries_same_identity es : ∀ this,
  same_identity this (snd (Reminder.update_entries this es)).
Proof.
  induction es as [|[key v] es IH]; intros this; cbn [Reminder.update_entries].
  - apply same_identity_refl.
  - destruct (Reminder.includes_key Reminder.validProperties key); [|apply IH].
    destruct (Reminder.assign this key v) eqn:Ha; cbn;
      try apply same_identity_refl.
    eapply same_identity_trans; [eapply assign_same_identity, Ha | apply IH].
Qed.

Lemma update_same_identity this properties :
  same_identity this (snd (Reminder.update this properties)).
Proof.
  unfold Reminder.update.
  destruct (entries properties); cbn;
    auto using same_identity_refl, update_entries_same_identity.
Qed.

Lemma completion_invariant_same_identity a b :
  same_identity a b → completion_invariant a → completion_invariant b.
Proof.
  unfold same_identity, completion_invariant.
  intros (_ & -> & _ & ->). auto.
Qed.

Lemma clone_completion this now newId r :
  Reminder.clone this now newId = Ret r →
  isCompleted r = isCompleted this ∧ completedAt r = completedAt this.
Proof.
  unfold Reminder.clone. intros Hc. bind_inv Hc.
  injection Hc as <-. auto.
Qed.

Lemma from_or_null_some v o :
  from_or_null v = Ret o → (o ≠ None ↔ truthy v = true).
Proof.
  unfold from_or_null. destruct (truthy v); intros Hf.
  - bind_inv Hf. injection Hf as <-. split; congruence.
  - injection Hf as <-. split; congruence.
Qed.

(** What deserialization does with the two completion fields: each is
    copied from the record on its own. *)
Lemma fromJSON_completion json now newId r :
  Reminder.fromJSON json now newId = Ret r →
  ∃ ca b, get json "completedAt" = Ret ca ∧
          get json "isCompleted" = Ret (VBool b) ∧
          isCompleted r = b ∧ (completedAt r ≠ None ↔ truthy ca = true).
Proof.
  unfold Reminder.fromJSON. intros Hf. bind_inv Hf.
  injection Hf as <-. cbn.
  match goal with
  | Hb : as_bool ?v = Ret ?b |- _ =>
      destruct v; try discriminate Hb; injection Hb as ->
  end.
  eexists _, _. repeat split; eauto using from_or_null_some.
  all: eapply from_or_null_some; eauto.
Qed.

Lemma fromJSON_invariant_iff json now newId r :
  Reminder.fromJSON json now newId = Ret r →
  (completion_invariant r ↔ consistent_record json).
Proof.
  intros Hf. destruct (fromJSON_completion _ _ _ _ Hf) as (ca & b & Hca & Hb & Hc & Hiff).
  unfold completion_invariant, consistent_record. rewrite Hc, Hiff. split.
  - intros Hi ca' ic' Hca' Hic'. rewrite Hca in Hca'. rewrite Hb in Hic'.
    injection Hca' as <-. injection Hic' as <-. rewrite Hi. split; congruence.
  - intros Hr. rewrite (Hr _ _ Hca Hb). split; congruence.
Qed.

(** C2 (as amended).  Every entity obtained by construction, [markComplete],
    [update], [clone], or by deserializing a stored record (normalized or
    not) whose [completedAt] is present exactly when its [isCompleted] is
    true, has [completedAt] non-null if and only if [isCompleted] is
    true. *)
Theorem reachable_completion_invariant r :
  reachable consistent_record r → completion_invariant r.
Proof.
  induction 1 as [? ? ? ? ? ? ? r Hn | r c now _ _ | r props _ IH
                 | r now newId r' _ IH Hc | json now newId r Hok Hf
                 | item nowISO newId json now newId' r _ Hok Hf].
  - destruct (new_fields _ _ _ _ _ _ _ _ Hn) as (Hc & Ha & _).
    unfold completion_invariant. rewrite Hc, Ha. split; congruence.
  - apply markComplete_invariant.
  - eapply completion_invariant_same_identity; [apply update_same_identity | exact IH].
  - destruct (clone_completion _ _ _ _ Hc) as [Hi Ha].
    unfold completion_invariant in *. rewrite Hi, Ha. exact IH.
  - eapply fromJSON_invariant_iff; eauto.
  - eapply fromJSON_invariant_iff; eauto.
Qed.

(** *** Validation errors of [update] *)

Lemma update_entries_throw es : ∀ this e this',
  Reminder.update_entries this es = (Throw e, this') →
  ∃ before key v after,
    es = before ++ (key, v) :: after ∧
    Reminder.update_entries this before = (Ret tt, this') ∧
    recognized (key, v) = true ∧
    Reminder.assign this' key v = Throw e.
Proof.
  induction es as [|[key v] es IH]; intros this e this' Hu;
    cbn [Reminder.update_entries] in Hu; [discriminate|].
  destruct (Reminder.includes_key Reminder.validProperties key) eqn:Hk.
  - destruct (Reminder.assign this key v) as [this1| |] eqn:Ha.
    + destruct (IH _ _ _ Hu) as (before & k & w & after & -> & Hb & Hr & Hw).
      exists ((key, v) :: before), k, w, after. repeat split; auto.
      cbn [Reminder.update_entries]. now rewrite Hk, Ha.
    + injection Hu as <- <-. exists [], key, v, es. repeat split; auto.
    + discriminate.
  - destruct (IH _ _ _ Hu) as (before & k & w & after & -> & Hb & Hr & Hw).
    exists ((key, v) :: before), k, w, after. repeat split; auto.
    cbn [Reminder.update_entries]. now rewrite Hk.
Qed.

Lemma update_entries_unrecognized before : ∀ this o this',
  Reminder.update_entries this before = (o, this') →
  forallb (λ e, negb (recognized e)) before = true → this' = this.
Proof.
  induction before as [|[key v] before IH]; intros this o this' Hu Hn;
    cbn [Reminder.update_entries] in Hu.
  - now injection Hu as _ <-.
  - cbn [forallb] in Hn. apply andb_prop in Hn as [Hk Hn].
    unfold recognized in Hk; cbn [fst] in Hk.
    destruct (Reminder.includes_key Reminder.validProperties key);
      [discriminate | eauto].
Qed.

Lemma assign_validation_error this key v message :
  Reminder.assign this key v = Throw (Error message) →
  (key = "title" ∧ message = "Title is required") ∨
  (key = "priority" ∧ message = "Invalid priority level").
Proof.
  unfold Reminder.assign.
  destruct (String.eqb_spec key "title") as [->|_].
  { intros Ha. left. split; [done|]. unfold Reminder.check_title in Ha.
    destruct (truthy v); cbn in Ha; [|congruence].
    destruct v; cbn in Ha; try discriminate.
    destruct (String.eqb _ _); cbn in Ha; congruence. }
  destruct (String.eqb_spec key "priority") as [->|_].
  { intros Ha. right. split; [done|]. unfold Reminder.check_priority in Ha.
    destruct (Reminder.parse_priority v); cbn in Ha; congruence. }
  intros Ha.
  repeat match type of Ha with
         | (if ?b then _ else _) = _ => destruct b
         end;
    bind_inv Ha; try discriminate Ha; destruct v; cbn in *; congruence.
Qed.

(** C3 (as amended).  When [Reminder.update] raises a validation error, it
    does so at an entry for [title] or [priority]; the entity is then the
    one obtained by applying the entries that precede it in the argument's
    order, which stay applied, while the rejected entry and those after it
    are not applied.  [id], [isCompleted], [createdAt] and [completedAt] are
    unchanged, and the whole entity is unchanged when no recognized entry
    precedes the rejected one. *)
Theorem update_raises_after_prefix this properties message this' :
  Reminder.update this properties = (Throw (Error message), this') →
  ∃ before key v after,
    entries properties = Ret (before ++ (key, v) :: after) ∧
    Reminder.update this (VObj before) = (Ret tt, this') ∧
    (key = "title" ∨ key = "priority") ∧
    Reminder.assign this' key v = Throw (Error message) ∧
    same_identity this this' ∧
    (forallb (λ e, negb (recognized e)) before = true → this' = this).
Proof.
  unfold Reminder.update at 1. intros Hu.
  destruct (entries properties) as [es|e|] eqn:He.
  - destruct (update_entries_throw _ _ _ _ Hu)
      as (before & key & v & after & -> & Hb & Hr & Ha).
    pose proof (update_entries_same_identity before this) as Hs.
    rewrite Hb in Hs. cbn [snd] in Hs.
    exists before, key, v, after.
    split; [reflexivity|]. split; [exact Hb|].
    split; [destruct (assign_validation_error _ _ _ _ Ha) as [[-> _]|[-> _]]; auto|].
    split; [exact Ha|]. split; [exact Hs|].
    eapply update_entries_unrecognized, Hb.
  - injection Hu as Hu _. destruct properties; cbn in He; congruence.
  - discriminate.
Qed.

(** *** Serialization round trip *)

Lemma check_title_ok t :
  Str.trim t ≠ "" → Reminder.check_title (VStr t) = Ret t.
Proof.
  intros Ht. unfold Reminder.check_title. cbn [truthy].
  destruct (String.eqb_spec t "") as [->|_]; [now destruct Ht|]. cbn [negb].
  now destruct (String.eqb_spec (Str.trim t) "").
Qed.

Lemma check_priority_toString p :
  Reminder.check_priority (VStr (Priority_toString p)) = Ret p.
Proof. now destruct p. Qed.

Lemma check_priority_valid s :
  In s ["low"; "medium"; "high"] →
  ∃ p, Reminder.check_priority (VStr s) = Ret p ∧ Priority_toString p = s.
Proof.
  cbn. intros [<-|[<-|[<-|[]]]]; [exists low | exists medium | exists high]; auto.
Qed.

Lemma from_or_null_printed d :
  prints_and_parses d →
  from_or_null (VStr (PlainDateTime_toString d)) = Ret (Some d).
Proof.
  intros [Hne Hp]. unfold from_or_null. cbn [truthy].
  destruct (String.eqb_spec (PlainDateTime_toString d) "") as [Heq|_];
    [now destruct Hne|].
  cbn. now rewrite Hp.
Qed.

Lemma from_or_null_opt_printed o :
  (∀ d, o = Some d → prints_and_parses d) →
  from_or_null (Reminder.opt_date_string o) = Ret o.
Proof.
  destruct o as [d|]; intros Hp; [|reflexivity].
  now apply from_or_null_printed, Hp.
Qed.

(** Deserializing the serialized form of an entity gives the entity back,
    when its title is valid and its date-times print and parse. *)
Lemma fromJSON_toJSON r now newId :
  Str.trim (title r) ≠ "" →
  prints_and_parses (createdAt r) →
  (∀ d, dueDate r = Some d → prints_and_parses d) →
  (∀ d, completedAt r = Some d → prints_and_parses d) →
  Reminder.fromJSON (Reminder.toJSON r) now newId = Ret r.
Proof.
  intros Ht [_ Hc] Hd Ha. destruct r as [i t d due p c b cr co]; cbn in *.
  unfold Reminder.fromJSON, Reminder.toJSON, Reminder.toJSON_fields, get.
  cbn [assoc String.eqb Ascii.eqb Bool.eqb mbind outcome_bind
       ident title description dueDate priority category isCompleted
       createdAt completedAt].
  unfold Reminder.new. cbn [default_param].
  rewrite (check_title_ok _ Ht), check_priority_toString.
  cbn [mbind outcome_bind as_string as_date_or_null
       ident title description dueDate priority category isCompleted
       createdAt completedAt].
  rewrite (from_or_null_opt_printed _ Hd), (from_or_null_opt_printed _ Ha).
  cbn [mbind outcome_bind PlainDateTime_from_value]. rewrite Hc.
  reflexivity.
Qed.

(** C5.  For every valid title and priority, every description, category
    and optional due date, the entity constructed from them and the entity
    deserialized from its serialized form have the same title, description,
    priority, category, isCompleted and dueDate (the date-times involved
    being ones the date-time library prints and parses back). *)
Theorem construct_serialize_deserialize
    (title_ description_ priority_ category_ : string)
    (due : option PlainDateTime) (now : PlainDateTime) (newId : string)
    (now' : PlainDateTime) (newId' : string) :
  Str.trim title_ ≠ "" →
  In priority_ ["low"; "medium"; "high"] →
  prints_and_parses now →
  (∀ d, due = Some d → prints_and_parses d) →
  ∃ r r',
    Reminder.new (VStr title_) (VStr description_) (opt_date due)
      (VStr priority_) (VStr category_) now newId = Ret r ∧
    Reminder.fromJSON (Reminder.toJSON r) now' newId' = Ret r' ∧
    title r' = title r ∧ description r' = description r ∧
    priority r' = priority r ∧ category r' = category r ∧
    isCompleted r' = isCompleted r ∧ dueDate r' = dueDate r.
Proof.
  intros Ht Hp Hnow Hdue.
  destruct (check_priority_valid _ Hp) as (p & Hcp & _).
  set (r := {| ident := newId; title := title_; description := description_;
               dueDate := due; priority := p; category := category_;
               isCompleted := false; createdAt := now; completedAt := None |}).
  assert (Hnew : Reminder.new (VStr title_) (VStr description_) (opt_date due)
                   (VStr priority_) (VStr category_) now newId = Ret r).
  { unfold Reminder.new.
    replace (default_param (opt_date due) VNull) with (opt_date due)
      by now destruct due.
    cbn [default_param]. rewrite (check_title_ok _ Ht), Hcp.
    cbn [mbind outcome_bind as_string].
    now destruct due. }
  exists r, r. split; [exact Hnew|]. split; [|repeat split].
  apply fromJSON_toJSON; cbn; auto; discriminate.
Qed.

(** *** The text of the time until due *)







(** *** Search *)



Lemma toLowerCase_empty q : Str.toLowerCase q = "" ↔ q = "".
Proof. destruct q; cbn; split; congruence. Qed.



(** *** Sorting by priority *)

Section Insertion.

Variables (A : Type) (rank : A → Z).

(** A comparator that orders by decreasing [rank]. *)
Variable compare : A → A → outcome Z.
Hypothesis compare_rank : ∀ x y, compare x y = Ret (rank y - rank x).




End Insertion.


(** *** The storage layer: availability probe and [save] *)

Lemma isStorageAvailable_stored ls key :
  key ≠ StorageLayer.probe_key →
  stored key (StorageLayer.isStorageAvailable ls).2 = stored key ls.
Proof.
  intros Hk. unfold StorageLayer.isStorageAvailable.
  destruct ls as [st|]; [|reflexivity].
  unfold setItem. destruct (fits _ _); [|reflexivity]. cbn.
  rewrite lookup_delete_ne, lookup_insert_ne; auto.
Qed.

Lemma mapM_cons {A B} (f : A → outcome B) x l :
  mapM f (x :: l) = y ← f x; k ← mapM f l; Ret (y :: k).
Proof. reflexivity. Qed.

Lemma mapM_typed {A B} (f : A → outcome B) l :
  (∀ x, f x ≠ Untyped) → mapM f l ≠ Untyped.
Proof.
  intros Hf. induction l as [|x l IH]; [discriminate|].
  rewrite mapM_cons. specialize (Hf x).
  destruct (f x); cbn; [|discriminate|done].
  destruct (mapM f l); cbn; [discriminate|discriminate|done].
Qed.

Lemma mapM_ret_inv {A B} (f : A → outcome B) l ys x :
  mapM f l = Ret ys → x ∈ l → ∃ y, f x = Ret y.
Proof.
  revert ys. induction l as [|a l IH]; intros ys Hm Hx.
  - now apply not_elem_of_nil in Hx.
  - rewrite mapM_cons in Hm. bind_inv Hm.
    apply elem_of_cons in Hx as [->|Hx]; eauto.
Qed.

Lemma get_typed v k : get v k ≠ Untyped.
Proof. now destruct v. Qed.

Lemma check_item_typed v : StorageLayer.check_item v ≠ Untyped.
Proof.
  unfold StorageLayer.check_item.
  destruct (instanceof_Reminder v); [discriminate|].
  destruct (negb (truthy v) || negb (typeof_object v)); [discriminate|].
  pose proof (get_typed v "title") as Hg.
  destruct (get v "title") as [t| |]; cbn [mbind outcome_bind];
    [|discriminate|done].
  destruct (negb (truthy t)); [discriminate|].
  destruct t; try discriminate.
  now destruct (String.eqb _ _).
Qed.

Lemma call_toJSON_typed v : StorageLayer.call_toJSON v ≠ Untyped.
Proof. now destruct v. Qed.

(** An element that is no [Reminder] instance either fails the validation
    or has no [toJSON] method. *)
Lemma element_without_toJSON v :
  instanceof_Reminder v = false →
  (∃ e, StorageLayer.check_item v = Throw e) ∨
  StorageLayer.call_toJSON v = Throw TypeError.
Proof.
  intros Hv. destruct v; try discriminate Hv; cbn; eauto.
Qed.

Lemma serialize_throws this l v :
  v ∈ l → instanceof_Reminder v = false →
  ∃ e, StorageLayer.serialize this (VArr l) = Throw e.
Proof.
  intros Hin Hv. unfold StorageLayer.serialize. cbn.
  destruct (mapM StorageLayer.check_item l) as [us|e|] eqn:Hc; cbn; eauto.
  - destruct (mapM StorageLayer.call_toJSON l) as [ys|e|] eqn:Hj; cbn; eauto.
    + destruct (mapM_ret_inv _ _ _ _ Hc Hin) as [u Hu].
      destruct (mapM_ret_inv _ _ _ _ Hj Hin) as [y Hy].
      destruct (element_without_toJSON v Hv) as [[e He]|He]; congruence.
    + now apply mapM_typed in Hj; [|apply call_toJSON_typed].
  - now apply mapM_typed in Hc; [|apply check_item_typed].
Qed.

(** C10 (as amended).  When the list given to [StorageLayer.save] has an
    element that is no [Reminder] instance (a plain record, whatever its
    title), [save] returns [false]; and the value stored under the layer's
    key is unchanged provided that key is not the one the availability
    probe writes and deletes, '__localStorage_test__'. *)
Theorem save_plain_record_returns_false this l v ls :
  v ∈ l → instanceof_Reminder v = false →
  ∃ ls', StorageLayer.save this (VArr l) ls = (Ret false, ls') ∧
         (StorageLayer.storageKey this ≠ StorageLayer.probe_key →
          stored (StorageLayer.storageKey this) ls'
          = stored (StorageLayer.storageKey this) ls).
Proof.
  intros Hin Hv. unfold StorageLayer.save, StorageLayer._isStorageAvailable.
  pose proof (isStorageAvailable_stored ls (StorageLayer.storageKey this)) as Hs.
  destruct (StorageLayer.isStorageAvailable ls) as [available ls1].
  destruct (serialize_throws this l v Hin Hv) as [e ->].
  exists ls1. destruct available; cbn; auto.
Qed.

(** *** The storage layer: [import] of a malformed backup *)

(** C4 (as amended).  When the [data] field of the backup is not an array
    (or is absent, or the backup itself is null), [StorageLayer.import]
    raises nothing to its caller: the format error is caught inside, and
    the call returns the result with [imported] 0 and the single error
    message 'Invalid backup data format', leaving the store as it was. *)
Theorem import_malformed_backup_returns_error this backupData env ls :
  (∀ l, get backupData "data" ≠ Ret (VArr l)) →
  StorageLayer.import this backupData env ls
  = (Ret (StorageLayer.mkImportResult 0 ["Invalid backup data format"]), ls).
Proof.
  intros Hd. unfold StorageLayer.import.
  destruct (truthy backupData) eqn:Ht; cbn [negb]; [|reflexivity].
  destruct (get backupData "data") as [d|e|] eqn:Hg.
  - destruct d; try reflexivity. now destruct (Hd elems).
  - destruct backupData; discriminate.
  - destruct backupData; discriminate.
Qed.

(** *** Persistence of the manager *)

Lemma setItem_unbounded key text ls :
  unbounded ls →
  ∃ ls', setItem key text ls = (Ret tt, ls') ∧ unbounded ls' ∧
         stored key ls' = Some text ∧
         ∀ k, k ≠ key → stored k ls' = stored k ls.
Proof.
  intros (st & -> & Hq). unfold setItem. rewrite Hq. cbn.
  eexists. split; [reflexivity|]. split; [now eexists|]. split.
  - apply lookup_insert_eq.
  - intros k Hk. now apply lookup_insert_ne.
Qed.

Lemma save_persisted this ls :
  unbounded ls →
  unbounded (ReminderManager.save this ls) ∧
  persisted this (ReminderManager.save this ls).
Proof.
  intros Hu. unfold ReminderManager.save, persisted.
  destruct (setItem_unbounded (ReminderManager.storageKey this)
              (JSON_stringify (VArr (Reminder.toJSON <$> ReminderManager.reminders this)))
              ls Hu) as (ls' & -> & Hu' & Hs & _).
  auto.
Qed.

Lemma add_persisted this data env ls o this' ls' :
  unbounded ls →
  ReminderManager.add this data env ls = (o, this', ls') →
  o ≠ Untyped →
  unbounded ls' ∧ (persisted this' ls' ∨ (this' = this ∧ ls' = ls)).
Proof.
  intros Hu. unfold ReminderManager.add.
  destruct (ReminderManager.make data env); intros Ha Ho;
    injection Ha as <- <- <-; [|auto|done].
  destruct (save_persisted
              (ReminderManager.with_reminders this
                 (ReminderManager.reminders this ++ [a])) ls Hu); auto.
Qed.

Lemma addMultiple_from_persisted env l : ∀ this k ls o this' ls',
  unbounded ls →
  ReminderManager.addMultiple_from this k l env ls = (o, this', ls') →
  o ≠ Untyped →
  unbounded ls' ∧ (persisted this' ls' ∨ (this' = this ∧ ls' = ls)).
Proof.
  induction l as [|x l IH]; intros this k ls o this' ls' Hu Ha Ho;
    cbn [ReminderManager.addMultiple_from] in Ha.
  - injection Ha as _ <- <-. auto.
  - destruct (ReminderManager.add this x (ReminderManager.shift k env) ls)
      as [[o1 this1] ls1] eqn:Hadd.
    assert (Ho1 : o1 ≠ Untyped).
    { intros ->. injection Ha as <- _ _. done. }
    destruct (add_persisted _ _ _ _ _ _ _ Hu Hadd Ho1) as [Hu1 Hp1].
    destruct o1 as [r|e|]; [|injection Ha as _ <- <-; auto|done].
    destruct (ReminderManager.addMultiple_from this1 (S k) l env ls1)
      as [[o2 this2] ls2] eqn:Hrest.
    assert (Ho2 : o2 ≠ Untyped).
    { intros ->. injection Ha as <- _ _. done. }
    destruct (IH _ _ _ _ _ _ Hu1 Hrest Ho2) as [Hu2 Hp2].
    assert (this' = this2 ∧ ls' = ls2) as [-> ->].
    { destruct o2; injection Ha as _ <- <-; auto. }
    split; [exact Hu2|].
    destruct Hp2 as [Hp2|[-> ->]]; [auto|exact Hp1].
Qed.

(** Each mutation, unless it is an [update] that raises, leaves the bare
    array of the collection under the key, or leaves the manager and the
    store as they were. *)
Lemma apply_persisted op env this ls o this' ls' :
  unbounded ls →
  ReminderManager.apply op env this ls = (o, this', ls') →
  settled op o →
  unbounded ls' ∧ (persisted this' ls' ∨ (this' = this ∧ ls' = ls)).
Proof.
  intros Hu. destruct op as [data|data|id| | |id updates|jsonData];
    cbn [ReminderManager.apply].
  - destruct (ReminderManager.add this data env ls) as [[o1 t1] l1] eqn:Ha.
    intros Hr Hs. injection Hr as <- <- <-.
    eapply add_persisted; eauto. now destruct o1.
  - unfold ReminderManager.addMultiple.
    destruct (iterate data) as [l|e|]; cbn.
    + destruct (ReminderManager.addMultiple_from this 0 l env ls)
        as [[o1 t1] l1] eqn:Ha.
      intros Hr Hs. injection Hr as <- <- <-.
      eapply addMultiple_from_persisted; eauto. now destruct o1.
    + intros Hr _. injection Hr as _ <- <-. auto.
    + intros Hr Hs. now injection Hr as <- _ _.
  - unfold ReminderManager.remove.
    destruct (ReminderManager.find_id id _) as [[index removed]|];
      intros Hr _; injection Hr as _ <- <-; auto.
    destruct (save_persisted
                (ReminderManager.with_reminders this
                   (delete index (ReminderManager.reminders this))) ls Hu); auto.
  - unfold ReminderManager.removeCompleted. intros Hr _.
    injection Hr as _ <- <-. edestruct save_persisted; eauto.
  - unfold ReminderManager.clear. intros Hr _. injection Hr as _ <- <-.
    edestruct save_persisted; eauto.
  - unfold ReminderManager.update.
    destruct (ReminderManager.find_id id _) as [[index reminder]|]; cbn;
      [|intros Hr _; injection Hr as _ <- <-; auto].
    destruct (Reminder.update reminder updates) as [[u|e|] reminder'];
      cbn; intros Hr Hs; injection Hr as <- <- <-.
    + edestruct save_persisted; eauto.
    + now destruct (Hs id updates).
    + done.
  - unfold ReminderManager.import.
    destruct (_ ≫= _) as [rs|e|]; cbn; intros Hr Hs;
      injection Hr as <- <- <-;
      [edestruct save_persisted; eauto | auto | done].
Qed.

(** C1 (as amended).  The manager writes to the key-value store itself,
    under its own key, and not through the storage layer: after every
    sequence of mutations (add, addMultiple, remove, removeCompleted,
    clear, update, import) in which no [update] raises, on a store that
    accepts the writes, the value stored under the key is the bare array
    (the legacy format, without the version-1 envelope) of the serialized
    records of exactly the entities in memory - or no mutation of the
    sequence had anything to change, and the manager and the store are as
    they were. *)
Theorem manager_persists_bare_array ops : ∀ this ls os this' ls',
  unbounded ls →
  ReminderManager.run ops this ls = (os, this', ls') →
  Forall2 (λ op o, settled op.1 o) ops os →
  persisted this' ls' ∨ (this' = this ∧ ls' = ls).
Proof.
  induction ops as [|[op env] ops IH]; intros this ls os this' ls' Hu Hr Hos;
    cbn [ReminderManager.run] in Hr.
  - injection Hr as _ <- <-. auto.
  - destruct (ReminderManager.apply op env this ls) as [[o this1] ls1] eqn:Ha.
    destruct (ReminderManager.run ops this1 ls1) as [[os' this2] ls2] eqn:Hrest.
    injection Hr as <- <- <-.
    apply Forall2_cons in Hos as [Ho Hos].
    destruct (apply_persisted _ _ _ _ _ _ _ Hu Ha Ho) as [Hu1 Hp1].
    destruct (IH _ _ _ _ _ Hu1 Hrest Hos) as [Hp2|[-> ->]]; auto.
Qed.

(** *** Loading the legacy format *)

Lemma isStorageAvailable_unbounded ls :
  unbounded ls →
  ∃ ls1, StorageLayer.isStorageAvailable ls = (true, ls1) ∧ unbounded ls1 ∧
         ∀ k, k ≠ StorageLayer.probe_key → stored k ls1 = stored k ls.
Proof.
  intros (st & -> & Hq). unfold StorageLayer.isStorageAvailable, setItem.
  rewrite Hq. cbn. eexists. split; [reflexivity|]. split; [now eexists|].
  intros k Hk. cbn. rewrite lookup_delete_ne, lookup_insert_ne; auto.
Qed.

Lemma getItem_unbounded key ls :
  unbounded ls → getItem key ls = Ret (stored key ls).
Proof. now intros (st & -> & _). Qed.

Lemma mapM_check_instances rs :
  ∃ us, mapM StorageLayer.check_item (VInst <$> rs) = Ret us.
Proof.
  induction rs as [|r rs [us IH]]; [now exists []|].
  rewrite fmap_cons, mapM_cons. cbn. rewrite IH. cbn. eauto.
Qed.

Lemma mapM_toJSON_instances rs :
  mapM StorageLayer.call_toJSON (VInst <$> rs) = Ret (Reminder.toJSON <$> rs).
Proof.
  induction rs as [|r rs IH]; [reflexivity|].
  rewrite fmap_cons, mapM_cons. cbn. now rewrite IH.
Qed.

(** [save] of entities on a store that accepts the write. *)
Lemma save_instances this rs ls :
  unbounded ls →
  ∃ ls', StorageLayer.save this (VArr (VInst <$> rs)) ls = (Ret true, ls') ∧
         unbounded ls' ∧
         stored (StorageLayer.storageKey this) ls'
         = Some (JSON_stringify
                   (StorageLayer.envelope this (Reminder.toJSON <$> rs))).
Proof.
  intros Hu. unfold StorageLayer.save, StorageLayer._isStorageAvailable.
  destruct (isStorageAvailable_unbounded ls Hu) as (ls1 & -> & Hu1 & _).
  cbn [negb]. unfold StorageLayer.serialize.
  cbn [isArray negb iterate mbind outcome_bind].
  destruct (mapM_check_instances rs) as [us ->]. cbn [mbind outcome_bind].
  rewrite mapM_toJSON_instances. cbn [mbind outcome_bind].
  destruct (setItem_unbounded (StorageLayer.storageKey this)
              (JSON_stringify (StorageLayer.envelope this (Reminder.toJSON <$> rs)))
              ls1 Hu1) as (ls2 & -> & Hu2 & Hs & _).
  eauto.
Qed.

Lemma or_else_text t d : t ≠ "" → or_else (VStr t) d = VStr t.
Proof.
  intros Ht. unfold or_else. cbn.
  now destruct (String.eqb_spec t "").
Qed.

Lemma or_else_description t : or_else (VStr t) (VStr "") = VStr t.
Proof.
  unfold or_else. cbn. now destruct (String.eqb_spec t "") as [->|].
Qed.

Lemma or_else_opt_text o :
  (∀ t, o = Some t → date_text t) → or_else (opt_text o) VNull = opt_text o.
Proof.
  destruct o as [t|]; [|reflexivity]. intros Hd.
  apply or_else_text, (Hd t eq_refl).
Qed.

Lemma from_or_null_opt_text o :
  (∀ t, o = Some t → date_text t) →
  from_or_null (opt_text o) = Ret (o ≫= PlainDateTime_from).
Proof.
  destruct o as [t|]; [|reflexivity]. intros Hd.
  destruct (Hd t eq_refl) as [Ht [d Hp]].
  unfold from_or_null. cbn. destruct (String.eqb_spec t "") as [|_]; [done|].
  cbn. now rewrite Hp.
Qed.

Lemma trim_not_empty t : Str.trim t ≠ "" → t ≠ "".
Proof. now intros Ht ->. Qed.

(** A valid complete record with nothing to default is revived into the
    entity that agrees with it. *)
Lemma revive_complete env n v rec :
  describes v rec → valid_record rec → nothing_to_default rec →
  ∃ r, StorageLayer.revive env n v = Ret (Some r) ∧ agrees r rec.
Proof.
  intros (Hid & Hti & Hde & Hdu & Hpr & Hca & Hic & Hcr & Hco)
         (Vt & Vp & [Vc [created Vc']] & Vd & Va) [Nid Nca].
  unfold StorageLayer.revive, StorageLayer._normalizeReminderData.
  rewrite Hpr, Hid, Hti, Hde, Hdu, Hca, Hic, Hcr, Hco.
  cbn [mbind outcome_bind].
  rewrite (or_else_text _ _ Nid), (or_else_text _ _ (trim_not_empty _ Vt)),
    or_else_description, (or_else_opt_text _ Vd), (or_else_text _ _ Nca),
    (or_else_text _ _ Vc), (or_else_opt_text _ Va).
  destruct (check_priority_valid _ Vp) as (p & Hp & Hps).
  assert (Hnorm :
    match Reminder.parse_priority
            (if String.eqb (l_priority rec) "normal" then VStr "medium"
             else VStr (l_priority rec)) with
    | Some _ => if String.eqb (l_priority rec) "normal" then VStr "medium"
                else VStr (l_priority rec)
    | None => VStr "medium"
    end = VStr (l_priority rec)).
  { cbn in Vp. destruct Vp as [<-|[<-|[<-|[]]]]; reflexivity. }
  rewrite Hnorm. clear Hnorm.
  unfold Reminder.fromJSON, get.
  cbn [assoc String.eqb Ascii.eqb Bool.eqb mbind outcome_bind truthy].
  unfold Reminder.new. cbn [default_param].
  rewrite (check_title_ok _ Vt), Hp.
  cbn [mbind outcome_bind as_string as_date_or_null as_bool].
  rewrite (from_or_null_opt_text _ Vd), (from_or_null_opt_text _ Va).
  cbn [mbind outcome_bind PlainDateTime_from_value]. rewrite Vc'.
  cbn [mbind outcome_bind].
  eexists. split; [reflexivity|].
  unfold agrees; cbn. rewrite Vc'. repeat split; auto.
Qed.

Lemma revive_from_complete env vs : ∀ n recs,
  Forall2 describes vs recs → Forall valid_record recs →
  Forall nothing_to_default recs →
  ∃ rs, StorageLayer.revive_from env n vs = Ret rs ∧ Forall2 agrees rs recs.
Proof.
  induction vs as [|v vs IH]; intros n recs Hd Hv Hn.
  - apply Forall2_nil_inv_l in Hd as ->. exists []. split; [done|constructor].
  - apply Forall2_cons_inv_l in Hd as (rec & recs' & Hd1 & Hd & ->).
    apply Forall_cons in Hv as [Hv1 Hv]. apply Forall_cons in Hn as [Hn1 Hn].
    destruct (revive_complete env n v rec Hd1 Hv1 Hn1) as (r & Hr & Ha).
    destruct (IH (S n) recs' Hd Hv Hn) as (rs & Hrs & Has).
    exists (r :: rs). cbn [StorageLayer.revive_from]. rewrite Hr, Hrs.
    split; [reflexivity|now constructor].
Qed.

Lemma JSON_parse_empty : JSON_parse "" = Throw SyntaxError.
Proof. reflexivity. Qed.

(** C6 (as amended).  When the stored value parses as a bare array of
    complete legacy records - each with a title that is not blank, one of
    the three priorities, date texts that parse, and a non-empty id and
    category - on a store that accepts the writes (under a key other than
    the availability probe's), [StorageLayer.load] returns, in order, the
    entities equal to the records field for field, and leaves under the
    key the version-1 envelope of these entities.  (An empty category is
    not kept: normalization replaces it by 'general'.) *)
Theorem load_migrates_legacy_array this env st text vs recs :
  StorageLayer.storageKey this ≠ StorageLayer.probe_key →
  quota st = None →
  items st !! StorageLayer.storageKey this = Some text →
  JSON_parse text = Ret (VArr vs) →
  Forall2 describes vs recs →
  Forall valid_record recs →
  Forall nothing_to_default recs →
  ∃ rs ls',
    StorageLayer.load this env (Some st) = (Ret rs, ls') ∧
    Forall2 agrees rs recs ∧
    stored (StorageLayer.storageKey this) ls'
    = Some (JSON_stringify
              (StorageLayer.envelope this (Reminder.toJSON <$> rs))).
Proof.
  intros Hk Hq Ht Hp Hd Hv Hn.
  assert (Hu : unbounded (Some st)) by now exists st.
  unfold StorageLayer.load, StorageLayer._isStorageAvailable.
  destruct (isStorageAvailable_unbounded _ Hu) as (ls1 & -> & Hu1 & Hs1).
  cbn [negb]. rewrite (getItem_unbounded _ _ Hu1), (Hs1 _ Hk). cbn [stored].
  rewrite Ht. destruct (String.eqb_spec text "") as [->|_].
  { rewrite JSON_parse_empty in Hp. discriminate Hp. }
  rewrite Hp. unfold StorageLayer._migrateFromLegacy.
  destruct (revive_from_complete env vs 0 recs Hd Hv Hn) as (rs & -> & Ha).
  destruct (save_instances this rs ls1 Hu1) as (ls2 & -> & _ & Hs2).
  exists rs, ls2. auto.
Qed.

End Properties.

(** * Further properties of the code

    Properties read off the sources, beyond those of the specification. *)

Section FurtherProperties.

Context `{Temporal}.

(** *** The title of an entity *)

Lemma check_title_not_blank v t :
  Reminder.check_title v = Ret t → Str.trim t ≠ "".
Proof.
  unfold Reminder.check_title. destruct (negb (truthy v)); [discriminate|].
  destruct v; try discriminate.
  destruct (String.eqb_spec (Str.trim s) ""); [discriminate|].
  now intros [= <-].
Qed.

Lemma new_title title_ description_ dueDate_ priority_ category_ now newId r :
  Reminder.new title_ description_ dueDate_ priority_ category_ now newId = Ret r →
  Str.trim (title r) ≠ "".
Proof.
  unfold Reminder.new. intros Hn. bind_inv Hn.
  injection Hn as <-. cbn. eauto using check_title_not_blank.
Qed.

Lemma assign_title this key v this' :
  Reminder.assign this key v = Ret this' →
  Str.trim (title this) ≠ "" → Str.trim (title this') ≠ "".
Proof.
  unfold Reminder.assign. intros Ha Ht.
  repeat match type of Ha with
  | (if ?b then _ else _) = _ => destruct b
  end; bind_inv Ha; injection Ha as <-; cbn; eauto using check_title_not_blank.
Qed.

Lemma update_entries_title es : ∀ this,
  Str.trim (title this) ≠ "" →
  Str.trim (title (snd (Reminder.update_entries this es))) ≠ "".
Proof.
  induction es as [|[key v] es IH]; intros this Ht; [done|].
  cbn [Reminder.update_entries].
  destruct (Reminder.includes_key _ _); [|now apply IH].
  destruct (Reminder.assign this key v) eqn:Ea; [|done..].
  apply IH. eauto using assign_title.
Qed.

Lemma fromJSON_title json now newId r :
  Reminder.fromJSON json now newId = Ret r → Str.trim (title r) ≠ "".
Proof.
  unfold Reminder.fromJSON. intros Hf. bind_inv Hf.
  injection Hf as <-. cbn. eauto using new_title.
Qed.

Theorem reachable_title_not_blank r :
  reachable any_record r → Str.trim (title r) ≠ "".
Proof.
  induction 1 as [? ? ? ? ? ? ? r Hn | r completed now _ IH | r properties _ IH
                 | r now newId r' _ IH Hc | json now newId r _ Hf
                 | item nowISO newId json now newId' r _ _ Hf].
  - eauto using new_title.
  - exact IH.
  - unfold Reminder.update. destruct (entries properties); [|done..].
    now apply update_entries_title.
  - unfold Reminder.clone in Hc. bind_inv Hc. injection Hc as <-. cbn.
    eauto using new_title.
  - eauto using fromJSON_title.
  - eauto using fromJSON_title.
Qed.

Theorem clone_copies_under_new_id this now newId :
  Str.trim (title this) ≠ "" →
  Reminder.clone this now newId
  = Ret {| ident := newId; title := title this;
           description := description this; dueDate := dueDate this;
           priority := priority this; category := category this;
           isCompleted := isCompleted this; createdAt := createdAt this;
           completedAt := completedAt this |}.
Proof.
  intros Ht. unfold Reminder.clone, Reminder.new. cbn [default_param].
  rewrite (check_title_ok _ Ht), check_priority_toString.
  destruct (dueDate this); reflexivity.
Qed.

Theorem markComplete_twice r b n1 n2 :
  Reminder.markComplete (Reminder.markComplete r None n1) None n2
  = Reminder.markComplete r (Some (isCompleted r)) n2 ∧
  Reminder.markComplete (Reminder.markComplete r (Some b) n1) (Some b) n2
  = Reminder.markComplete r (Some b) n2 ∧
  (isCompleted r = false → completedAt r = None →
   Reminder.markComplete (Reminder.markComplete r None n1) None n2 = r).
Proof.
  destruct r as [? ? ? ? ? ? c ? ca]; unfold Reminder.markComplete; cbn.
  split_and!.
  - now destruct c.
  - now destruct b.
  - intros -> ->. reflexivity.
Qed.

Theorem update_ignores_unrecognized this es :
  forallb (λ e, negb (recognized e)) es = true →
  Reminder.update this (VObj es) = (Ret tt, this).
Proof.
  unfold Reminder.update; cbn [entries].
  induction es as [|[key v] es IH]; [done|].
  cbn [forallb]. intros [Hk Hes]%andb_prop.
  cbn [Reminder.update_entries]. unfold recognized in Hk. cbn [fst] in Hk.
  destruct (Reminder.includes_key _ key); [discriminate|]. auto.
Qed.

(** *** Queries and statistics of the manager *)

Lemma filter_partition_length {A} (p : A → bool) l :
  length l = (length (List.filter (λ x, negb (p x)) l)
              + length (List.filter p l))%nat.
Proof.
  induction l as [|x l IH]; [done|]. cbn. destruct (p x); cbn; lia.
Qed.

Lemma overdue_from_active clock l : ∀ n,
  sublist (ReminderManager.overdue_from clock n l)
    (List.filter (λ r, negb (isCompleted r)) l).
Proof.
  induction l as [|r l IH]; intros n; [done|].
  cbn. unfold Reminder.isOverdue.
  destruct (dueDate r), (isCompleted r); cbn;
    try destruct (_ <? 0); try constructor; auto.
  all: try (apply sublist_cons; auto).
Qed.

Lemma overdue_from_elem clock l r : ∀ n,
  r ∈ ReminderManager.overdue_from clock n l →
  ∃ i, l !! i = Some r ∧ Reminder.isOverdue r (clock (n + i)%nat) = true.
Proof.
  induction l as [|x l IH]; intros n; cbn; [by intros ?%elem_of_nil|].
  destruct (Reminder.isOverdue x (clock n)) eqn:Eo.
  - intros [->|Hr]%elem_of_cons.
    + exists 0%nat. now rewrite Nat.add_0_r.
    + destruct (IH _ Hr) as (i & Hi & Ho). exists (S i).
      now rewrite Nat.add_succ_r.
  - intros Hr. destruct (IH _ Hr) as (i & Hi & Ho). exists (S i).
    now rewrite Nat.add_succ_r.
Qed.

Theorem overdue_and_upcoming_are_active this clock now futureLimit r :
  (r ∈ ReminderManager.getOverdue this clock →
   r ∈ ReminderManager.getActive this ∧ dueDate r ≠ None) ∧
  (r ∈ ReminderManager.getUpcoming this now futureLimit →
   r ∈ ReminderManager.getActive this ∧ dueDate r ≠ None ∧
   Reminder.isOverdue r now = false).
Proof.
  split.
  - intros Hr. split.
    + eapply elem_of_sublist; [exact Hr|apply overdue_from_active].
    + apply overdue_from_elem in Hr as (i & _ & Ho).
      unfold Reminder.isOverdue in Ho. now destruct (dueDate r).
  - unfold ReminderManager.getUpcoming, ReminderManager.getActive.
    rewrite !list_elem_of_In, !filter_In. intros [Hin Hp].
    unfold Reminder.isOverdue.
    destruct (dueDate r) as [d|]; [|discriminate].
    destruct (isCompleted r); [discriminate|].
    apply andb_prop in Hp as [Hge _].
    repeat split; auto. lia.
Qed.

Theorem statistics_consistent this clock s :
  ReminderManager.getStatistics this clock = Ret s →
  ReminderManager.total s
  = (ReminderManager.active s + ReminderManager.completed s)%nat ∧
  (ReminderManager.overdue s ≤ ReminderManager.active s)%nat ∧
  ReminderManager.total s = ReminderManager.count this ∧
  ReminderManager.active s = ReminderManager.countActive this ∧
  ReminderManager.completed s = ReminderManager.countCompleted this.
Proof.
  unfold ReminderManager.getStatistics. intros Hs. bind_inv Hs.
  injection Hs as <-. cbn.
  unfold ReminderManager.count, ReminderManager.countActive,
    ReminderManager.countCompleted, ReminderManager.countOverdue,
    ReminderManager.getActive, ReminderManager.getCompleted,
    ReminderManager.getOverdue.
  split_and!; try done.
  - apply filter_partition_length.
  - apply sublist_length, overdue_from_active.
Qed.

(** The count under [k] after the loop is the count before plus the
    number of entities whose key is [k]. *)
Lemma count_by_spec (key : Reminder → string) l : ∀ counts,
  Forall (λ r, key r ∉ ReminderManager.inherited) l →
  ∃ counts', ReminderManager.count_by key l counts = Ret counts' ∧
    ∀ k, default 0%nat (counts' !! k)
         = (default 0%nat (counts !! k)
            + length (List.filter (λ r, String.eqb (key r) k) l))%nat.
Proof.
  induction l as [|r l IH]; intros counts Hl.
  - exists counts. split; [done|]. intros k. cbn. lia.
  - inversion Hl as [|? ? Hr Hl']; subst.
    cbn [ReminderManager.count_by]. unfold ReminderManager.tally.
    rewrite bool_decide_eq_false_2 by done. cbn [mbind outcome_bind].
    destruct (IH (<[key r := S (default 0%nat (counts !! key r))]> counts) Hl')
      as (counts' & -> & Hc).
    exists counts'. split; [done|]. intros k. rewrite Hc. cbn [List.filter].
    destruct (String.eqb_spec (key r) k) as [->|Hk].
    + rewrite lookup_insert_eq. cbn. lia.
    + rewrite lookup_insert_ne by done. lia.
Qed.

Lemma count_by_present (key : Reminder → string) l : ∀ counts counts' k,
  ReminderManager.count_by key l counts = Ret counts' →
  counts' !! k = None →
  counts !! k = None ∧ List.filter (λ r, String.eqb (key r) k) l = [].
Proof.
  induction l as [|r l IH]; intros counts counts' k; cbn.
  - now intros [= ->].
  - unfold ReminderManager.tally. destruct (bool_decide _); [discriminate|].
    cbn [mbind outcome_bind]. intros Hc Hk.
    destruct (IH _ _ _ Hc Hk) as [Hi Hf].
    destruct (String.eqb_spec (key r) k) as [Heq|Hne].
    + rewrite Heq in Hi. now rewrite lookup_insert_eq in Hi.
    + now rewrite lookup_insert_ne in Hi.
Qed.

Lemma count_by_positive (key : Reminder → string) l : ∀ counts counts',
  ReminderManager.count_by key l counts = Ret counts' →
  (∀ k, counts !! k ≠ Some 0%nat) → ∀ k, counts' !! k ≠ Some 0%nat.
Proof.
  induction l as [|r l IH]; intros counts counts'; cbn.
  - now intros [= ->].
  - unfold ReminderManager.tally. destruct (bool_decide _); [discriminate|].
    cbn [mbind outcome_bind]. intros Hc Hp. eapply IH; [exact Hc|].
    intros k. destruct (decide (key r = k)) as [Heq|Hne].
    + rewrite Heq. now rewrite lookup_insert_eq.
    + now rewrite lookup_insert_ne.
Qed.

Lemma Priority_toString_not_inherited p :
  Priority_toString p ∉ ReminderManager.inherited.
Proof.
  unfold ReminderManager.inherited. rewrite !elem_of_cons, elem_of_nil.
  destruct p; cbn; intros Hp; repeat destruct Hp as [Hp|Hp]; done.
Qed.

Theorem countByPriority_agrees_with_getByPriority this :
  ∃ counts,
    ReminderManager.countByPriority this = Ret counts ∧
    (∀ p, default 0%nat (counts !! Priority_toString p)
          = length (ReminderManager.getByPriority this
                      (VStr (Priority_toString p)))) ∧
    (default 0%nat (counts !! "low") + default 0%nat (counts !! "medium")
     + default 0%nat (counts !! "high"))%nat = ReminderManager.count this.
Proof.
  unfold ReminderManager.countByPriority.
  destruct (count_by_spec (λ r, Priority_toString (priority r))
              (ReminderManager.reminders this) ∅) as (counts & Hc & Hk).
  { apply Forall_forall. intros r _. apply Priority_toString_not_inherited. }
  exists counts. split; [done|]. split.
  - intros p. rewrite Hk, lookup_empty. reflexivity.
  - rewrite !Hk, !lookup_empty. cbn [default]. unfold ReminderManager.count.
    clear Hc Hk.
    induction (ReminderManager.reminders this) as [|r l IH]; [done|].
    cbn [List.filter length]. destruct (priority r); cbn; lia.
Qed.

Theorem countByCategory_agrees_with_getByCategory this :
  Forall (λ r, category r ∉ ReminderManager.inherited)
    (ReminderManager.reminders this) →
  ∃ counts,
    ReminderManager.countByCategory this = Ret counts ∧
    ∀ c, counts !! c
         = match length (ReminderManager.getByCategory this (VStr c)) with
           | O => None
           | n => Some n
           end.
Proof.
  intros Hl. unfold ReminderManager.countByCategory.
  destruct (count_by_spec category (ReminderManager.reminders this) ∅ Hl)
    as (counts & Hc & Hk).
  exists counts. split; [done|]. intros c.
  unfold ReminderManager.getByCategory, ReminderManager.strict_equals.
  specialize (Hk c). rewrite lookup_empty in Hk. cbn [default] in Hk.
  destruct (counts !! c) as [n|] eqn:En.
  - cbn in Hk. rewrite <- Hk. destruct n; [|done].
    exfalso. eapply count_by_positive; [exact Hc| |exact En].
    intros k. now rewrite lookup_empty.
  - destruct (count_by_present _ _ _ _ _ Hc En) as [_ ->]. done.
Qed.

(** *** Mutations of the manager's collection *)

Lemma find_id_split id l i r :
  ReminderManager.find_id id l = Some (i, r) →
  ident r = id ∧
  ∃ before after, l = before ++ r :: after ∧ length before = i ∧
                  Forall (λ x, ident x ≠ id) before.
Proof.
  unfold ReminderManager.find_id. intros (Hi & Hid & Hfirst)%list_find_Some.
  split; [done|].
  exists (take i l), (drop (S i) l). split_and!.
  - now rewrite take_drop_middle.
  - apply length_take_le. apply lookup_lt_Some in Hi. lia.
  - apply Forall_forall. intros x [j Hj]%list_elem_of_lookup_1.
    pose proof (lookup_lt_Some _ _ _ Hj) as Hlt. rewrite length_take in Hlt.
    rewrite lookup_take_lt in Hj by lia. eapply Hfirst; [exact Hj|lia].
Qed.

Theorem remove_deletes_first_match this id ls :
  (Forall (λ x, ident x ≠ id) (ReminderManager.reminders this) ∧
   ReminderManager.remove this id ls = (None, this, ls)) ∨
  (∃ before removed after,
     ReminderManager.reminders this = before ++ removed :: after ∧
     Forall (λ x, ident x ≠ id) before ∧ ident removed = id ∧
     let this' := ReminderManager.with_reminders this (before ++ after) in
     ReminderManager.remove this id ls
     = (Some removed, this', ReminderManager.save this' ls)).
Proof.
  unfold ReminderManager.remove.
  destruct (ReminderManager.find_id id (ReminderManager.reminders this))
    as [[i r]|] eqn:Ef.
  - right. destruct (find_id_split _ _ _ _ Ef) as (Hid & before & after & Hl & Hi & Hb).
    exists before, r, after. split_and!; try done.
    cbn zeta. rewrite Hl. subst i.
    replace (delete (length before) (before ++ r :: after)) with (before ++ after);
      [done|].
    clear. induction before as [|x before IH]; cbn; [done|]. now f_equal.
  - left. split; [|done]. now apply list_find_None in Ef.
Qed.

Theorem removeCompleted_keeps_the_active this ls :
  ∃ this' ls',
    ReminderManager.removeCompleted this ls
    = (ReminderManager.countCompleted this, this', ls') ∧
    ReminderManager.getAll this' = ReminderManager.getActive this ∧
    ReminderManager.getCompleted this' = [] ∧
    (ReminderManager.count this'
     = ReminderManager.count this - ReminderManager.countCompleted this)%nat ∧
    ReminderManager.removeCompleted this' ls'
    = (0%nat, this', ReminderManager.save this' ls').
Proof.
  unfold ReminderManager.removeCompleted, ReminderManager.countCompleted,
    ReminderManager.getCompleted, ReminderManager.getActive,
    ReminderManager.getAll, ReminderManager.count.
  eexists _, _. split; [reflexivity|]. cbn.
  assert (Hnone : ∀ l : list Reminder,
    List.filter isCompleted (List.filter (λ r, negb (isCompleted r)) l) = []).
  { induction l as [|r l IH]; [done|]. cbn.
    destruct (isCompleted r) eqn:Ec; cbn; [done|]. now rewrite Ec. }
  assert (Hall : ∀ l : list Reminder,
    List.filter (λ r, negb (isCompleted r))
      (List.filter (λ r, negb (isCompleted r)) l)
    = List.filter (λ r, negb (isCompleted r)) l).
  { induction l as [|r l IH]; [done|]. cbn.
    destruct (isCompleted r) eqn:Ec; cbn; [done|]. rewrite Ec. cbn. now f_equal. }
  split_and!; try done.
  - rewrite (filter_partition_length isCompleted (ReminderManager.reminders this)).
    lia.
  - rewrite Hnone, Hall. reflexivity.
Qed.


Theorem add_appends this data env ls r this' ls' :
  ReminderManager.add this data env ls = (Ret r, this', ls') →
  ReminderManager.getAll this' = ReminderManager.getAll this ++ [r] ∧
  ls' = ReminderManager.save this' ls ∧
  (data = VInst r ∨
   (ident r = genId env 0 ∧ createdAt r = now env ∧ isCompleted r = false)) ∧
  (ReminderManager.getById this (ident r) = None →
   ReminderManager.getById this' (ident r) = Some r).
Proof.
  unfold ReminderManager.add.
  destruct (ReminderManager.make data env) as [r0| |] eqn:Em; try discriminate.
  intros [= -> <- <-]. split_and!; try done.
  - unfold ReminderManager.make in Em.
    destruct data; try (injection Em as ->; now left); right.
    all: destruct (truthy _ && typeof_object _); try discriminate Em.
    all: bind_inv Em.
    all: match type of Em with
         | (if ?b then _ else _) = _ => destruct b; try discriminate Em
         end.
    all: bind_inv Em.
    all: apply new_fields in Em as (? & ? & ? & ?); done.
  - unfold ReminderManager.getById, ReminderManager.find_id. cbn.
    destruct (list_find _ (ReminderManager.reminders this)) eqn:Ef; [discriminate|].
    intros _. rewrite list_find_app_r by done. cbn.
    now rewrite decide_True by done.
Qed.

Theorem update_changes_one_entity this id updates ls o this' ls' :
  ReminderManager.update this id updates ls = (o, this', ls') →
  ident <$> ReminderManager.getAll this' = ident <$> ReminderManager.getAll this ∧
  (o = Ret None → this' = this ∧ ls' = ls) ∧
  (∀ r', o = Ret (Some r') →
     ident r' = id ∧ ReminderManager.getById this' id = Some r' ∧
     ls' = ReminderManager.save this' ls) ∧
  (∀ e, o = Throw e → ls' = ls).
Proof.
  unfold ReminderManager.update, ReminderManager.getAll.
  destruct (ReminderManager.find_id id (ReminderManager.reminders this))
    as [[i r]|] eqn:Ef.
  - pose proof (update_same_identity r updates) as (Hid & _).
    destruct (Reminder.update r updates) as [o' r'] eqn:Eu. cbn [snd] in Hid.
    pose proof Ef as (Hi & Hr & Hfirst)%list_find_Some.
    assert (Hids : ident <$> <[i := r']> (ReminderManager.reminders this)
                   = ident <$> ReminderManager.reminders this).
    { rewrite list_fmap_insert. apply list_insert_id.
      rewrite list_lookup_fmap, Hi. cbn. now rewrite Hid. }
    assert (Hfind : ReminderManager.getById
                      (ReminderManager.with_reminders this
                         (<[i := r']> (ReminderManager.reminders this))) id
                    = Some r').
    { unfold ReminderManager.getById, ReminderManager.find_id. cbn.
      replace (list_find (λ r0, ident r0 = id)
                 (<[i := r']> (ReminderManager.reminders this)))
        with (Some (i, r')); [done|].
      symmetry. apply list_find_Some. split_and!.
      - apply list_lookup_insert_eq. eapply lookup_lt_Some, Hi.
      - congruence.
      - intros j y Hj Hlt. rewrite list_lookup_insert_ne in Hj by lia. eauto. }
    destruct o'; intros [= <- <- <-]; cbn; split_and!; try done.
    intros r'' [= <-]. split_and!; try done. congruence.
  - intros [= <- <- <-]. split_and!; try done.
Qed.

(** *** Sorting *)

Section Sorting.

Context {A : Type} (compare : A → A → outcome Z) (R : A → A → Prop).

Hypothesis compare_le : ∀ x y c, compare x y = Ret c → c <= 0 → R x y.
Hypothesis compare_gt : ∀ x y c, compare x y = Ret c → 0 < c → R y x.
Hypothesis R_trans : ∀ x y z, R x y → R y z → R x z.

Lemma insert_permutation x : ∀ l s,
  ReminderManager.insert compare x l = Ret s → s ≡ₚ x :: l.
Proof.
  induction l as [|y l IH]; cbn; intros s Hs.
  - now injection Hs as <-.
  - destruct (compare x y) as [c| |]; cbn in Hs; try discriminate.
    destruct (c <=? 0).
    + now injection Hs as <-.
    + destruct (ReminderManager.insert compare x l) as [l''| |];
        cbn in Hs; try discriminate.
      injection Hs as <-. rewrite (IH _ eq_refl). apply Permutation_swap.
Qed.

Lemma insert_sorted x : ∀ l s,
  StronglySorted R l → ReminderManager.insert compare x l = Ret s →
  StronglySorted R s.
Proof.
  induction l as [|y l IH]; cbn; intros s Hl Hs.
  - injection Hs as <-. repeat constructor.
  - destruct (compare x y) as [c| |] eqn:Ec; cbn in Hs; try discriminate.
    inversion Hl as [|? ? Hl' Hy]; subst.
    destruct (Z.leb_spec c 0).
    + injection Hs as <-. constructor; [done|]. constructor; [eauto|].
      eapply Forall_impl; [exact Hy|]. cbn. eauto.
    + destruct (ReminderManager.insert compare x l) as [l''| |] eqn:Ei;
        cbn in Hs; try discriminate.
      injection Hs as <-. constructor; [eauto|].
      apply insert_permutation in Ei. rewrite Ei. constructor; eauto.
Qed.

Lemma sort_sorted : ∀ l s,
  ReminderManager.sort compare l = Ret s → StronglySorted R s ∧ s ≡ₚ l.
Proof.
  induction l as [|x l IH]; cbn; intros s Hs.
  - injection Hs as <-. split; [constructor|done].
  - destruct (ReminderManager.sort compare l) as [l'| |]; cbn in Hs; try discriminate.
    destruct (IH _ eq_refl) as [Hsorted Hperm]. split.
    + eauto using insert_sorted.
    + apply insert_permutation in Hs. now rewrite Hs, Hperm.
Qed.

Lemma sort_returns : (∀ x y, ∃ c, compare x y = Ret c) →
  ∀ l, ∃ s, ReminderManager.sort compare l = Ret s.
Proof.
  intros Hc. induction l as [|x l [s Hs]]; cbn; [eauto|].
  rewrite Hs. cbn. clear l Hs. induction s as [|y s [s' Hs']]; cbn; [eauto|].
  destruct (Hc x y) as [c ->]. cbn. destruct (_ <=? 0); [eauto|].
  rewrite Hs'. cbn. eauto.
Qed.

Lemma sorted_lookup l : StronglySorted R l →
  ∀ i j a b, (i < j)%nat → l !! i = Some a → l !! j = Some b → R a b.
Proof.
  induction 1 as [|x l _ IH Hx]; intros i j a b Hij Hi Hj; [done|].
  destruct j as [|j]; [lia|]. cbn in Hj. destruct i as [|i].
  - injection Hi as <-. rewrite Forall_forall in Hx.
    eapply Hx, list_elem_of_lookup_2, Hj.
  - eapply (IH i j); [lia|done..].
Qed.

End Sorting.

Lemma sort_permutation {A} (compare : A → A → outcome Z) l s :
  ReminderManager.sort compare l = Ret s → s ≡ₚ l.
Proof.
  intros Hs.
  now destruct (sort_sorted compare (λ _ _, True) ltac:(done) ltac:(done)
                  ltac:(done) l s Hs).
Qed.

Theorem sortBy_permutes_a_copy this field order sorted this' :
  ReminderManager.sortBy this field order = (Ret sorted, this') →
  sorted ≡ₚ ReminderManager.getAll this ∧ this' = this.
Proof.
  unfold ReminderManager.sortBy. intros [= Hs <-].
  eauto using sort_permutation.
Qed.

Theorem sortBy_dueDate_undated_last this order :
  ∃ sorted,
    ReminderManager.sortBy this "dueDate" order = (Ret sorted, this) ∧
    sorted ≡ₚ ReminderManager.getAll this ∧
    ∀ i j a b, sorted !! i = Some a → sorted !! j = Some b →
      dueDate a = None → dueDate b ≠ None → (j < i)%nat.
Proof.
  unfold ReminderManager.sortBy.
  destruct (sort_returns (ReminderManager.comparator "dueDate" order)
              ltac:(cbn; eauto) (ReminderManager.reminders this)) as [s Hs].
  exists s. rewrite Hs. split; [done|].
  destruct (sort_sorted (ReminderManager.comparator "dueDate" order)
              (λ a b, dueDate a = None → dueDate b = None)) with (4 := Hs)
    as [Hsorted Hperm].
  - cbn. intros x y c [= <-].
    destruct (dueDate x), (dueDate y); cbn; try done; lia.
  - cbn. intros x y c [= <-].
    destruct (dueDate x), (dueDate y); cbn; try done; lia.
  - auto.
  - split; [done|]. intros i j a b Hi Hj Ha Hb.
    destruct (decide (j < i)%nat) as [|Hge]; [done|]. exfalso.
    destruct (decide (i = j)) as [->|Hne]; [congruence|].
    apply Hb. eapply (sorted_lookup _ _ Hsorted i j); [lia|done..].
Qed.

Lemma ltb_irrefl a : String.ltb a a = false.
Proof.
  unfold String.ltb. destruct (String.compare a a) eqn:Ec; try done.
  pose proof (String.compare_antisym a a) as Ha. rewrite Ec in Ha. done.
Qed.

Lemma ltb_trans a b c :
  String.ltb a b = true → String.ltb b c = true → String.ltb a c = true.
Proof.
  unfold String.ltb.
  destruct (String.compare a b) eqn:E1; try discriminate.
  destruct (String.compare b c) eqn:E2; try discriminate. intros _ _.
  assert (Hac : String_as_OT.lt a c) by (transitivity b; assumption).
  change (String.compare a c = Lt) in Hac. now rewrite Hac.
Qed.

Lemma ltb_total a b :
  String.ltb a b = true ∨ a = b ∨ String.ltb b a = true.
Proof.
  unfold String.ltb. rewrite (String.compare_antisym b a).
  destruct (String.compare a b) eqn:Ec; cbn; auto.
  right; left. now apply String.compare_eq_iff.
Qed.

Lemma ltb_asym a b : String.ltb a b = true → String.ltb b a = false.
Proof.
  intros Hab. destruct (String.ltb b a) eqn:Hba; [|done].
  pose proof (ltb_trans _ _ _ Hab Hba) as Haa. now rewrite ltb_irrefl in Haa.
Qed.

Lemma not_ltb_trans a b c :
  String.ltb b a = false → String.ltb c b = false → String.ltb c a = false.
Proof.
  intros Hba Hcb. destruct (String.ltb c a) eqn:Hca; [|done].
  destruct (ltb_total a b) as [Hab|[->|Hab]]; [|congruence..].
  pose proof (ltb_trans _ _ _ Hca Hab). congruence.
Qed.

Theorem sortBy_title_orders_by_lowercase this order :
  ∃ sorted,
    ReminderManager.sortBy this "title" order = (Ret sorted, this) ∧
    sorted ≡ₚ ReminderManager.getAll this ∧
    ∀ i j a b, (i < j)%nat → sorted !! i = Some a → sorted !! j = Some b →
      if String.eqb order "asc"
      then String.ltb (Str.toLowerCase (title b)) (Str.toLowerCase (title a)) = false
      else String.ltb (Str.toLowerCase (title a)) (Str.toLowerCase (title b)) = false.
Proof.
  unfold ReminderManager.sortBy.
  assert (Hc : ∀ x y, ReminderManager.comparator "title" order x y
    = Ret (if String.ltb (Str.toLowerCase (title x)) (Str.toLowerCase (title y))
           then if String.eqb order "asc" then -1 else 1
           else if String.ltb (Str.toLowerCase (title y)) (Str.toLowerCase (title x))
                then if String.eqb order "asc" then 1 else -1
                else 0)).
  { intros x y. cbn. unfold ReminderManager.by_values. cbn.
    destruct (String.ltb _ _); [done|]. now destruct (String.ltb _ _). }
  destruct (sort_returns (ReminderManager.comparator "title" order)
              ltac:(intros; rewrite Hc; eauto) (ReminderManager.reminders this))
    as [s Hs].
  exists s. rewrite Hs. split; [done|].
  destruct (sort_sorted (ReminderManager.comparator "title" order)
              (λ a b, if String.eqb order "asc"
                      then String.ltb (Str.toLowerCase (title b))
                             (Str.toLowerCase (title a)) = false
                      else String.ltb (Str.toLowerCase (title a))
                             (Str.toLowerCase (title b)) = false))
    with (4 := Hs) as [Hsorted Hperm].
  - intros x y c. rewrite Hc. intros [= <-].
    destruct (String.ltb (Str.toLowerCase (title x)) _) eqn:Hxy;
      destruct (String.ltb (Str.toLowerCase (title y)) _) eqn:Hyx;
      destruct (String.eqb order "asc"); try done; try lia.
    all: intros _; rewrite ltb_asym in Hyx; done.
  - intros x y c. rewrite Hc. intros [= <-].
    destruct (String.ltb (Str.toLowerCase (title x)) _) eqn:Hxy;
      destruct (String.ltb (Str.toLowerCase (title y)) _) eqn:Hyx;
      destruct (String.eqb order "asc"); try done; try lia.
    all: intros _; rewrite ltb_asym in Hyx; done.
  - intros x y z. destruct (String.eqb order "asc"); eauto using not_ltb_trans.
  - split; [done|]. intros i j a b Hij Hi Hj.
    exact (sorted_lookup _ _ Hsorted i j a b Hij Hi Hj).
Qed.

End FurtherProperties.

(** * The properties on the sample data *)

Section Evaluation.

#[local] Existing Instance Iso.temporal.

(** ** The reference date-time implementation *)

Lemma digit_code k : nat_of_ascii (Iso.digit k) = (48 + Z.to_nat (k mod 10))%nat.
Proof.
  unfold Iso.digit. apply nat_ascii_embedding.
  pose proof (Z.mod_pos_bound k 10 eq_refl). lia.
Qed.

Lemma number_digit k s acc :
  Iso.number (String (Iso.digit k) s) acc = Iso.number s (10 * acc + k mod 10).
Proof.
  cbn [Iso.number]. rewrite digit_code.
  pose proof (Z.mod_pos_bound k 10 eq_refl) as Hk.
  replace (Nat.leb 48 (48 + Z.to_nat (k mod 10))) with true
    by (symmetry; apply Nat.leb_le; lia).
  replace (Nat.leb (48 + Z.to_nat (k mod 10)) 57) with true
    by (symmetry; apply Nat.leb_le; lia).
  cbn [andb]. f_equal. lia.
Qed.

Lemma number_pad2 n acc : 0 <= n <= 99 →
  Iso.number (Iso.pad2 n) acc = Some (100 * acc + n).
Proof.
  intros Hn. unfold Iso.pad2. rewrite !number_digit. cbn [Iso.number].
  f_equal. Z.div_mod_to_equations. lia.
Qed.

Lemma number_pad4 n acc : 0 <= n <= 9999 →
  Iso.number (Iso.pad4 n) acc = Some (10000 * acc + n).
Proof.
  intros Hn. unfold Iso.pad4, Iso.pad2. rewrite !number_digit. cbn [Iso.number].
  f_equal. Z.div_mod_to_equations. lia.
Qed.

Lemma from_toString d :
  Iso.well_formed d = true → Iso.from (Iso.toString d) = Some d.
Proof.
  intros Hw.
  assert (Hw' := Hw). unfold Iso.well_formed in Hw'.
  repeat (apply andb_prop in Hw' as [Hw' ?]).
  repeat match goal with
         | Hb : (_ <=? _) = true |- _ => apply Z.leb_le in Hb
         end.
  destruct d as [y mo da h mi se].
  cbn [Iso.year Iso.month Iso.day Iso.hour Iso.minute Iso.second] in *.
  assert (Hda : da <= 99).
  { unfold Iso.days_in_month in *.
    repeat match goal with
           | Hd : context [if ?b then _ else _] |- _ => destruct b
           end; lia. }
  unfold Iso.from, Iso.toString.
  cbn [Iso.year Iso.month Iso.day Iso.hour Iso.minute Iso.second].
  set (s := Iso.pad4 y +:+ _).
  replace (Iso.separators s) with true by reflexivity.
  replace (String.length s) with 19%nat by reflexivity.
  replace (bool_decide (substring 16 1 s = ":")) with true by reflexivity.
  cbn [negb Nat.eqb orb andb].
  unfold Iso.field.
  change (substring 0 4 s) with (Iso.pad4 y).
  change (substring 5 2 s) with (Iso.pad2 mo).
  change (substring 8 2 s) with (Iso.pad2 da).
  change (substring 11 2 s) with (Iso.pad2 h).
  change (substring 14 2 s) with (Iso.pad2 mi).
  change (substring 17 2 s) with (Iso.pad2 se).
  rewrite number_pad4, !number_pad2 by lia. cbn [mbind option_bind].
  replace (100 * 0 + mo) with mo by lia. replace (100 * 0 + da) with da by lia.
  replace (100 * 0 + h) with h by lia. replace (100 * 0 + mi) with mi by lia.
  replace (100 * 0 + se) with se by lia. replace (10000 * 0 + y) with y by lia.
  now rewrite Hw.
Qed.

(** Every well-formed date-time of the reference implementation prints to
    a non-empty text that parses back to it. *)
Lemma well_formed_prints_and_parses (d : PlainDateTime) :
  Iso.well_formed d = true → prints_and_parses d.
Proof.
  intros Hw. split; [discriminate|]. now apply from_toString.
Qed.

(** ** Tests of the repository, on the model *)

(** 'should save and load reminders' and 'should save versioned data
    format'. *)
Example test_save_and_load :
  ∃ ls1 ls2,
    StorageLayer.save Sample.layer (VArr [VInst Sample.task]) Sample.empty_store
    = (Ret true, ls1) ∧
    (JSON_parse <$> stored "test-reminders" ls1)
    = Some (Ret (StorageLayer.envelope Sample.layer [Reminder.toJSON Sample.task])) ∧
    StorageLayer.load Sample.layer Sample.env ls1 = (Ret [Sample.task], ls2).
Proof. eexists _, _. repeat split. Qed.

(** 'should handle corrupted JSON data' *)
Example test_corrupted :
  (StorageLayer.load Sample.layer Sample.env
     (Some (mkStorage {[ "test-reminders" := "invalid json" ]} None))).1
  = Ret [].
Proof. reflexivity. Qed.

(** 'should validate reminder data' *)
Example test_validate :
  (StorageLayer.save Sample.layer
     (VArr [VObj [("title", VStr ""); ("description", VStr "Invalid")]])
     Sample.empty_store).1
  = Ret false.
Proof. reflexivity. Qed.

(** 'should normalize old priority values' *)
Example test_normalize_priority :
  ∃ r ls', StorageLayer.load Sample.layer Sample.env Sample.old_store
           = (Ret [r], ls') ∧ priority r = medium.
Proof. eexists _, _. split; reflexivity. Qed.

(** 'should import data' *)
Example test_import :
  ∃ ls1 r ls2,
    StorageLayer.import Sample.layer Sample.backup Sample.env Sample.empty_store
    = (Ret (StorageLayer.mkImportResult 1 []), ls1) ∧
    StorageLayer.load Sample.layer Sample.env ls1 = (Ret [r], ls2) ∧
    title r = "Imported Task".
Proof. eexists _, _, _. repeat split. Qed.

(** 'should update reminder properties' and 'should validate updates' *)
Example test_update :
  ∃ r, Reminder.update Sample.task
         (VObj [("title", VStr "Updated task"); ("priority", VStr "low")])
       = (Ret tt, r) ∧ title r = "Updated task" ∧ priority r = low.
Proof. eexists. repeat split. Qed.

Example test_update_validates :
  Reminder.update Sample.task (VObj [("title", VStr "")])
  = (Throw (Error "Title is required"), Sample.task) ∧
  Reminder.update Sample.task (VObj [("priority", VStr "invalid")])
  = (Throw (Error "Invalid priority level"), Sample.task).
Proof. split; reflexivity. Qed.

(** 'should mark reminder as complete' and 'should toggle completion
    status' *)
Example test_markComplete :
  let done := Reminder.markComplete Sample.task None Sample.clock in
  isCompleted done = true ∧ completedAt done = Some Sample.clock ∧
  Reminder.markComplete done (Some false) Sample.clock = Sample.task.
Proof. repeat split. Qed.

(** ** Persistence of the manager (C1) *)

(** After [manager.add(groceries)] the value under the key is not the
    version-1 envelope of the collection: the text starts with a bracket,
    it is the bare array. *)
Lemma add_stores_no_envelope :
  ∃ r this' ls',
    ReminderManager.add Sample.manager Sample.groceries Sample.env
      Sample.empty_store = (Ret r, this', ls') ∧
    persisted this' ls' ∧ ¬ persisted_in_envelope this' ls'.
Proof.
  eexists _, _, _. split; [reflexivity|]. split.
  - reflexivity.
  - intros He. discriminate He.
Qed.

Lemma manager_persists_bare_array_witness :
  persisted Sample.final.1.2 Sample.final.2 ∨
  (Sample.final.1.2 = Sample.manager ∧ Sample.final.2 = Sample.empty_store).
Proof.
  apply (manager_persists_bare_array Sample.mutations Sample.manager
           Sample.empty_store Sample.final.1.1).
  - exists (mkStorage ∅ None). split; reflexivity.
  - reflexivity.
  - repeat constructor; discriminate.
Defined.

(** ** The completion invariant (C2) *)

(** The record of a completed reminder without [completedAt] is normalized
    and deserialized into an entity that is completed and has no
    [completedAt]. *)
Lemma completed_record_breaks_invariant :
  ∃ r, reachable any_record r ∧ ¬ completion_invariant r.
Proof.
  exists Sample.completed. split.
  - eapply (reach_normalized any_record Sample.completed_record
              (nowISO Sample.env) (genId Sample.env 0) _
              (now Sample.env) (genId Sample.env 1)).
    + reflexivity.
    + exact I.
    + reflexivity.
  - unfold completion_invariant. cbn. intros [_ Hc].
    now destruct (Hc eq_refl).
Qed.

Lemma reachable_completion_invariant_witness :
  completion_invariant (Reminder.markComplete Sample.task None Sample.clock).
Proof.
  apply reachable_completion_invariant.
  apply reach_markComplete.
  apply (reach_new consistent_record (VStr "Test task") (VStr "Test description")
           (VDate Sample.futureDate) (VStr "high") (VStr "work")
           Sample.clock "reminder_0").
  reflexivity.
Defined.

(** ** Validation errors of [update] (C3) *)

(** [task.update({ description: 'changed', title: '' })] raises 'Title is
    required' and leaves the description changed. *)
Lemma update_not_atomic :
  ∃ message this',
    Reminder.update Sample.task Sample.bad_update = (Throw (Error message), this') ∧
    this' ≠ Sample.task ∧ description this' = "changed".
Proof.
  eexists _, _. split; [reflexivity|]. split; [discriminate|reflexivity].
Qed.

Lemma update_raises_after_prefix_witness :
  ∃ before key v after,
    entries Sample.bad_update = Ret (before ++ (key, v) :: after) ∧
    Reminder.update Sample.task (VObj before)
    = (Ret tt, Reminder.set_description Sample.task "changed") ∧
    (key = "title" ∨ key = "priority") ∧
    Reminder.assign (Reminder.set_description Sample.task "changed") key v
    = Throw (Error "Title is required") ∧
    same_identity Sample.task (Reminder.set_description Sample.task "changed") ∧
    (forallb (λ e, negb (recognized e)) before = true →
     Reminder.set_description Sample.task "changed" = Sample.task).
Proof.
  apply (update_raises_after_prefix Sample.task Sample.bad_update).
  reflexivity.
Defined.

(** ** Malformed backups (C4) *)

(** [import] of a backup whose [data] is a string returns a result. *)
Lemma import_malformed_backup_returns :
  ∃ result ls',
    StorageLayer.import Sample.layer Sample.malformed_backup Sample.env
      Sample.empty_store = (Ret result, ls').
Proof. eexists _, _. reflexivity. Qed.

Lemma import_malformed_backup_witness :
  StorageLayer.import Sample.layer Sample.malformed_backup Sample.env
    Sample.empty_store
  = (Ret (StorageLayer.mkImportResult 0 ["Invalid backup data format"]),
     Sample.empty_store).
Proof.
  apply import_malformed_backup_returns_error.
  intros l. discriminate.
Defined.

(** ** Serialization round trip (C5) *)

Lemma prints_and_parses_clock : prints_and_parses Sample.clock.
Proof. split; [discriminate|reflexivity]. Defined.

Lemma prints_and_parses_futureDate : prints_and_parses Sample.futureDate.
Proof. split; [discriminate|reflexivity]. Defined.

Lemma construct_serialize_deserialize_witness :
  ∃ r r',
    Reminder.new (VStr "Holiday Task") (VStr "Prepare for holidays")
      (opt_date (Some Sample.futureDate)) (VStr "high") (VStr "personal")
      Sample.clock "reminder_0" = Ret r ∧
    Reminder.fromJSON (Reminder.toJSON r) Sample.clock "reminder_1" = Ret r' ∧
    title r' = title r ∧ description r' = description r ∧
    priority r' = priority r ∧ category r' = category r ∧
    isCompleted r' = isCompleted r ∧ dueDate r' = dueDate r.
Proof.
  apply construct_serialize_deserialize.
  - discriminate.
  - simpl. auto.
  - exact prints_and_parses_clock.
  - intros d Hd. injection Hd as <-. exact prints_and_parses_futureDate.
Defined.

(** ** Loading the legacy format (C6) *)

(** The manager stores a reminder of empty category as a bare array; the
    record is complete and valid; [load] migrates it, and the entity it
    returns has the category 'general'. *)
Lemma load_replaces_empty_category :
  ∃ text v r ls',
    stored "reminders" Sample.legacy_store = Some text ∧
    JSON_parse text = Ret (VArr [v]) ∧
    describes v Sample.groceries_record ∧
    valid_record Sample.groceries_record ∧
    StorageLayer.load (StorageLayer.new "reminders") Sample.env
      Sample.legacy_store = (Ret [r], ls') ∧
    category r = "general" ∧
    ¬ Forall2 agrees [r] [Sample.groceries_record].
Proof.
  eexists _, _, _, _. split; [reflexivity|]. split; [reflexivity|].
  split; [repeat split|]. split.
  { repeat split; try discriminate; cbn; auto. }
  split; [reflexivity|]. split; [reflexivity|].
  intros Ha. apply Forall2_cons_1 in Ha as [(_ & _ & _ & _ & _ & Hc & _) _].
  discriminate Hc.
Qed.

Lemma valid_legacy_record : valid_record Sample.legacy_record.
Proof.
  repeat split; try discriminate; cbn; auto.
Defined.

Lemma load_migrates_legacy_array_witness :
  ∃ rs ls',
    StorageLayer.load Sample.layer Sample.env (Some Sample.test_store)
    = (Ret rs, ls') ∧
    Forall2 agrees rs [Sample.legacy_record] ∧
    stored (StorageLayer.storageKey Sample.layer) ls'
    = Some (JSON_stringify
              (StorageLayer.envelope Sample.layer (Reminder.toJSON <$> rs))).
Proof.
  apply (load_migrates_legacy_array Sample.layer Sample.env Sample.test_store
           Sample.legacy_text [Sample.legacy_value] [Sample.legacy_record]).
  - discriminate.
  - reflexivity.
  - reflexivity.
  - reflexivity.
  - constructor; [repeat split | constructor].
  - constructor; [exact valid_legacy_record | constructor].
  - constructor; [split; discriminate | constructor].
Defined.

(** ** Sorting by priority (C7) *)

Lemma sortBy_priority_sample :
  ∃ sorted,
    (ReminderManager.sortBy Sample.meetings "priority" "asc").1 = Ret sorted ∧
    (ReminderManager.sortBy Sample.meetings "priority" "desc").1 = Ret sorted ∧
    priority <$> ReminderManager.getAll Sample.meetings = [low; high; medium] ∧
    priority <$> sorted = [high; medium; low].
Proof. eexists. repeat split. Qed.

(** ** The text of the time until due (C8) *)


(** ** Search (C9) *)

Lemma search_sample :
  ReminderManager.search Sample.meetings "MEETING"
  = ReminderManager.search Sample.meetings "meeting" ∧
  title <$> ReminderManager.search Sample.meetings "MEETING"
  = ["Meeting with team"] ∧
  ReminderManager.search Sample.meetings "" = [].
Proof. repeat split. Qed.

(** ** [save] of plain records (C10) *)

(** On a layer whose key is the probe's, [save] of a plain record returns
    [false] and the value that was stored under the key is gone. *)
Lemma save_probe_key_loses_value :
  ∃ ls',
    StorageLayer.save Sample.probe_layer (VArr Sample.plain_records)
      Sample.probe_store = (Ret false, ls') ∧
    stored (StorageLayer.storageKey Sample.probe_layer) Sample.probe_store
    = Some "[]" ∧
    stored (StorageLayer.storageKey Sample.probe_layer) ls' = None.
Proof. eexists. repeat split. Qed.

Lemma save_plain_record_returns_false_witness :
  ∃ ls',
    StorageLayer.save Sample.layer (VArr Sample.plain_records)
      (Some Sample.test_store) = (Ret false, ls') ∧
    (StorageLayer.storageKey Sample.layer ≠ StorageLayer.probe_key →
     stored (StorageLayer.storageKey Sample.layer) ls'
     = stored (StorageLayer.storageKey Sample.layer) (Some Sample.test_store)).
Proof.
  apply (save_plain_record_returns_false Sample.layer Sample.plain_records
           (VObj [("title", VStr "Valid Task 2"); ("description", VStr "Valid data")])).
  - apply list_elem_of_here.
  - reflexivity.
Defined.

End Evaluation.
